(** * Post service of the blog backend: listing, creation, update, deletion
      and the coherence of the [posts:all] cache

    Shallow embedding of [src/controllers/post.ts] and of the Zod schemas of
    [src/validations/blog.validation.ts].

    The controllers talk to three collaborators: the Content Store (Mongoose
    models), the Cache Layer (the Redis client) and the asset uploader.  Each
    awaited collaborator call is an explicit step of a state-and-exception
    monad: it is recorded in a trace, it may reject (the environment decides),
    and otherwise it reads or updates the modelled store and cache.

    Modelling choices:
    - identifiers are the strings that appear as [_id] in serialized
      documents; the post controllers hand the identifier of a request to the
      store, which casts it to an ObjectId before it compares
      ([ObjectId_cast]), and to the cache patches, which compare the string
      as it is;
    - strings are sequences of code units below 256;
    - a cache entry is a text with the expiry it was written with; the
      passing of time, and so expiry itself, is not modelled;
    - [JSON.parse], [JSON.stringify], [ObjectId.isValid], the identifiers the
      store assigns and the texts of library-made error messages are
      parameters ([Platform]); a reference instance runs the controllers on
      concrete requests. *)

From Stdlib Require Import ZArith Ascii String.
From stdpp Require Import gmap strings pretty list sorting.

Local Open Scope string_scope.
Local Open Scope list_scope.
Set Warnings "-register-all".

(** ** JavaScript values that cross the wire or the cache *)

(** A JSON value, as [JSON.parse] returns it and as [res.json] sends it. *)
Inductive json : Type :=
| JNull
| JBool (b : bool)
| JNum (n : Z)
| JStr (s : string)
| JArr (items : list json)
| JObj (fields : list (string * json)).

(** Field lookup in an object literal (first binding of the key). *)
Fixpoint assoc (k : string) (fs : list (string * json)) : option json :=
  match fs with
  | [] => None
  | (k', v) :: fs' => if String.eqb k k' then Some v else assoc k fs'
  end.

(** JavaScript truthiness of a [string | null] value: [null] and the empty
    string are falsy. *)
Definition truthy (v : option string) : bool :=
  match v with
  | Some s => negb (String.eqb s "")
  | None => false
  end.

(** ** Strings: [String.prototype.trim]

    Strings are sequences of code units below 256; the white space and line
    terminators of ECMAScript in that range are TAB, LF, VT, FF, CR, SPACE and
    NBSP. *)
Definition is_js_space (a : ascii) : bool :=
  let n := nat_of_ascii a in
  (Nat.eqb n 9 || Nat.eqb n 10 || Nat.eqb n 11 || Nat.eqb n 12
   || Nat.eqb n 13 || Nat.eqb n 32 || Nat.eqb n 160)%bool.

Fixpoint trim_start (s : string) : string :=
  match s with
  | EmptyString => EmptyString
  | String a s' => if is_js_space a then trim_start s' else s
  end.

Fixpoint trim_end (s : string) : string :=
  match s with
  | EmptyString => EmptyString
  | String a s' =>
      match trim_end s' with
      | EmptyString => if is_js_space a then EmptyString else String a EmptyString
      | t => String a t
      end
  end.

Definition trim (s : string) : string := trim_end (trim_start s).

(** ** Errors that can be thrown *)

Record ZodIssue := { issue_path : list string; issue_message : string }.

Inductive Exn : Type :=
| ZodError (errors : list ZodIssue)  (* thrown by [schema.parse] *)
| SyntaxError (input : string)       (* thrown by [JSON.parse] *)
| TypeError (subject : json)         (* property or method access the value does not support *)
| Error (message : string)           (* any other [Error]: a rejected store, cache or upload call *)
| NonError.                          (* a thrown value that is not an [Error] *)

(** ** The platform: library functions the controllers call

    These are functions of the JavaScript runtime, of Mongoose and of Zod, not
    of this repository; the development is parametric in them. *)
Class Platform := {
  JSON_parse : string -> option json;        (* [None]: throws [SyntaxError] *)
  JSON_stringify : json -> string;
  JSON_parse_empty : JSON_parse "" = None;   (* the empty text is not JSON *)
  ObjectId_isValid : string -> bool;         (* [mongoose.Types.ObjectId.isValid] *)
  ObjectId_cast : string -> option string;   (* the ObjectId a query casts an identifier
                                                to, as documents spell it; [None]: the
                                                string is no ObjectId *)
  ObjectId_fresh : N -> string;              (* the n-th identifier the store assigns *)
  Date_toJSON : Z -> string;                 (* ISO rendering of a timestamp *)
  zod_invalid_type : string -> option json -> string;
                                             (* Zod's message for a value of the wrong type *)
  engine_message : Exn -> string             (* [.message] of an error the runtime or Zod built *)
}.

(** [error instanceof Error ? error.message : 'Unknown error'] *)
Definition error_message `{Platform} (error : Exn) : string :=
  match error with
  | Error m => m
  | NonError => "Unknown error"
  | e => engine_message e
  end.

(** ** Validation schemas ([blog.validation.ts]) *)

Inductive Parsed (A : Type) : Type :=
| Valid (a : A)
| Invalid (issues : list ZodIssue).
Arguments Valid {A} a.
Arguments Invalid {A} issues.

Section Zod.
Context `{Platform}.

(** [z.string().min(1, { message }).transform((val) => val.trim())] at the
    key [key] of an object: the length check runs on the value as received,
    the transform afterwards. *)
Definition z_string_min1_trim (key message : string) (v : option json)
  : Parsed string :=
  match v with
  | Some (JStr s) =>
      if Nat.leb 1 (String.length s) then Valid (trim s)
      else Invalid [ {| issue_path := [key]; issue_message := message |} ]
  | other =>
      Invalid [ {| issue_path := [key];
                   issue_message := zod_invalid_type "string" other |} ]
  end.

(** The elements of [z.array(z.string())]: one issue per element that is
    not a string, at path [key.i]. *)
Fixpoint z_strings (key : string) (i : N) (items : list json)
  : list string * list ZodIssue :=
  match items with
  | [] => ([], [])
  | x :: rest =>
      let '(ss, iss) := z_strings key (N.succ i) rest in
      match x with
      | JStr s => (s :: ss, iss)
      | other =>
          (ss, {| issue_path := [key; pretty i];
                  issue_message := zod_invalid_type "string" (Some other) |} :: iss)
      end
  end.

(** [z.array(z.string()).optional()] *)
Definition z_array_string_optional (key : string) (v : option json)
  : Parsed (option (list string)) :=
  match v with
  | None => Valid None
  | Some (JArr items) =>
      match z_strings key 0%N items with
      | (ss, []) => Valid (Some ss)
      | (_, iss) => Invalid iss
      end
  | Some other =>
      Invalid [ {| issue_path := [key];
                   issue_message := zod_invalid_type "array" (Some other) |} ]
  end.

Definition issues_of {A} (p : Parsed A) : list ZodIssue :=
  match p with Valid _ => [] | Invalid iss => iss end.

Record CreatePostData := {
  cp_content : string;
  cp_tags : option (list string);
  cp_category : string
}.

(** [createPostValidation.parse]: every key of the schema is checked and the
    issues are collected in schema order. *)
Definition createPostValidation (body : option json) : Parsed CreatePostData :=
  match body with
  | Some (JObj fields) =>
      let c := z_string_min1_trim "content"
                 "Content should have at least 1 characters" (assoc "content" fields) in
      let t := z_array_string_optional "tags" (assoc "tags" fields) in
      let g := z_string_min1_trim "category"
                 "Category is required" (assoc "category" fields) in
      match c, t, g with
      | Valid content, Valid tags, Valid category =>
          Valid {| cp_content := content; cp_tags := tags; cp_category := category |}
      | _, _, _ => Invalid (issues_of c ++ issues_of t ++ issues_of g)
      end
  | other =>
      Invalid [ {| issue_path := []; issue_message := zod_invalid_type "object" other |} ]
  end.

Record UpdatePostData := { up_content : string }.

(** [updatePostValidation.parse] *)
Definition updatePostValidation (body : option json) : Parsed UpdatePostData :=
  match body with
  | Some (JObj fields) =>
      match z_string_min1_trim "content"
              "Content should have at least 1 characters" (assoc "content" fields) with
      | Valid content => Valid {| up_content := content |}
      | Invalid iss => Invalid iss
      end
  | other =>
      Invalid [ {| issue_path := []; issue_message := zod_invalid_type "object" other |} ]
  end.
End Zod.

(** ** Documents of the Content Store *)

Record User := {
  user_id : string;
  user_username : string;
  user_fullname : string;
  user_profilePicture : string
}.

Record Category := { category_id : string; category_name : string }.

Record Post := {
  post_id : string;
  post_content : string;
  post_author : string;            (* reference to a User *)
  post_image : option string;
  post_tags : list string;
  post_category : string;          (* reference to a Category *)
  post_createdAt : Z
}.

(** ** The collaborator calls a controller awaits *)

Inductive Call : Type :=
| RedisGet (key : string)
| RedisSet (key value : string) (EX : option N)
| RedisDel (key : string)
| CategoryFindOne (name : string)
| CategorySave (name : string)
| CloudinaryUpload (path : string)
| PostCreate (content author : string) (image : option string)
    (tags : option (list string)) (category : string)
| PostFindByIdPopulated (id : string)
| PostFindSortedPopulated
| PostFindById (id : string)
| PostFindByIdAndUpdate (id content : string)
| PostFindByIdAndDelete (id : string).

(** Calls that read or write the Content Store. *)
Definition is_store_call (c : Call) : bool :=
  match c with
  | RedisGet _ | RedisSet _ _ _ | RedisDel _ | CloudinaryUpload _ => false
  | _ => true
  end.

(** Calls that write to the Content Store. *)
Definition is_store_mutation (c : Call) : bool :=
  match c with
  | CategorySave _ | PostCreate _ _ _ _ _
  | PostFindByIdAndUpdate _ _ | PostFindByIdAndDelete _ => true
  | _ => false
  end.

(** ** State of the system *)

Record State := {
  posts : list Post;                       (* Content Store: posts, in insertion order *)
  categories : list Category;              (* Content Store: categories *)
  users : list User;                       (* Content Store: users (read only here) *)
  redis : gmap string (string * option N); (* Cache Layer: value and remaining TTL policy *)
  issued : N;                              (* identifiers the store has assigned so far *)
  trace : list Call                        (* collaborator calls, oldest first *)
}.

(** What the outside world decides during one request. *)
Record Env := {
  throws : list Call -> Call -> option Exn; (* after this history, does the call reject? *)
  cloudinary : string -> option string;     (* [secure_url] of the uploaded asset, if any *)
  now : Z                                   (* the store's clock *)
}.

Record Request := {
  req_user : option string;   (* [req.user?.id] *)
  req_id : string;            (* [req.params.id] *)
  req_body : option json;     (* [req.body] *)
  req_file : option string    (* [req.file?.path] *)
}.

Record Response := { status : nat; body : json }.

(** ** The monad of a controller body

    A computation either yields a value, has already sent the response
    ([return res.status(..).json(..)]) or has thrown. *)

Inductive Res (A : Type) : Type :=
| Val (a : A)
| Reply (r : Response)
| Throw (e : Exn).
Arguments Val {A} a.
Arguments Reply {A} r.
Arguments Throw {A} e.

Definition M (A : Type) : Type := State -> Res A * State.

Definition ret {A} (a : A) : M A := fun s => (Val a, s).
Definition reply {A} (r : Response) : M A := fun s => (Reply r, s).
Definition throw {A} (e : Exn) : M A := fun s => (Throw e, s).

Definition bind {A B} (m : M A) (k : A -> M B) : M B :=
  fun s =>
    match m s with
    | (Val a, s') => k a s'
    | (Reply r, s') => (Reply r, s')
    | (Throw e, s') => (Throw e, s')
    end.

(** [try { m } catch (e) { h e }] *)
Definition try_catch {A} (m : M A) (h : Exn -> M A) : M A :=
  fun s =>
    match m s with
    | (Throw e, s') => h e s'
    | r => r
    end.

Declare Scope ctl_scope.
Delimit Scope ctl_scope with ctl.
Notation "x <- m ;; k" := (bind m (fun x => k))
  (at level 100, m at next level, right associativity) : ctl_scope.
Notation "m ;; k" := (bind m (fun _ => k))
  (at level 100, right associativity) : ctl_scope.

(** A controller: [try { body } catch (error) { return handler(error) }]. *)
Definition controller (body : M Response) (handler : Exn -> Response)
  : State -> Response * State :=
  fun s =>
    match body s with
    | (Val r, s') => (r, s')
    | (Reply r, s') => (r, s')
    | (Throw e, s') => (handler e, s')
    end.

Definition log (c : Call) (s : State) : State :=
  {| posts := posts s; categories := categories s; users := users s;
     redis := redis s; issued := issued s; trace := trace s ++ [c] |}.

Definition set_redis (r : gmap string (string * option N)) (s : State) : State :=
  {| posts := posts s; categories := categories s; users := users s;
     redis := r; issued := issued s; trace := trace s |}.

Definition set_posts (ps : list Post) (s : State) : State :=
  {| posts := ps; categories := categories s; users := users s;
     redis := redis s; issued := issued s; trace := trace s |}.

Definition set_categories (cs : list Category) (s : State) : State :=
  {| posts := posts s; categories := cs; users := users s;
     redis := redis s; issued := issued s; trace := trace s |}.

Definition bump_issued (s : State) : State :=
  {| posts := posts s; categories := categories s; users := users s;
     redis := redis s; issued := N.succ (issued s); trace := trace s |}.

(** ** Synchronous code that may throw *)

Inductive Try (A : Type) : Type :=
| Done (a : A)
| Raised (e : Exn).
Arguments Done {A} a.
Arguments Raised {A} e.

Definition and_then {A B} (t : Try A) (k : A -> Try B) : Try B :=
  match t with
  | Done a => k a
  | Raised e => Raised e
  end.

(** Running synchronous code inside a controller body. *)
Definition lift {A} (t : Try A) : M A :=
  fun s => (match t with Done a => Val a | Raised e => Throw e end, s).

(** [schema.parse(req.body)] throws a [ZodError] carrying the issues. *)
Definition zod_parse {A} (p : Parsed A) : Try A :=
  match p with
  | Valid a => Done a
  | Invalid issues => Raised (ZodError issues)
  end.

(** [JSON.parse] *)
Definition parse `{Platform} (text : string) : Try json :=
  match JSON_parse text with
  | Some v => Done v
  | None => Raised (SyntaxError text)
  end.

(** ** Array methods on deserialized values

    [JSON.parse] returns [any]: a method call on a value that is not an array,
    or a property read on [null], throws a [TypeError]. *)

Definition as_array (v : json) : Try (list json) :=
  match v with
  | JArr items => Done items
  | other => Raised (TypeError other)
  end.

(** [p._id === postId] *)
Definition id_is (postId : string) (p : json) : Try bool :=
  match p with
  | JNull => Raised (TypeError JNull)
  | JObj fields =>
      Done (match assoc "_id" fields with
            | Some (JStr s) => String.eqb s postId
            | _ => false
            end)
  | _ => Done false
  end.

(** [p._id !== postId] *)
Definition id_is_not (postId : string) (p : json) : Try bool :=
  and_then (id_is postId p) (fun b => Done (negb b)).

(** [Array.prototype.findIndex]; [None] stands for [-1]. *)
Fixpoint findIndex (cb : json -> Try bool) (items : list json) (i : nat)
  : Try (option nat) :=
  match items with
  | [] => Done None
  | p :: rest =>
      and_then (cb p) (fun b => if b then Done (Some i) else findIndex cb rest (S i))
  end.

(** [Array.prototype.filter] *)
Fixpoint filter_array (cb : json -> Try bool) (items : list json) : Try (list json) :=
  match items with
  | [] => Done []
  | p :: rest =>
      and_then (cb p) (fun b =>
      and_then (filter_array cb rest) (fun kept =>
      Done (if b then p :: kept else kept)))
  end.

(** ** Cache keys *)

Definition CACHE_KEY : string := "posts:all".
Definition PROFILE_CACHE_KEY (userId : string) : string := "profile:" ++ userId.
Definition POSTS_CACHE_KEY (userId : string) : string := "posts:" ++ userId.

(** ** Collaborators *)

(** Listing order of [sort({ createdAt: -1 })]. *)
Definition newer_first (p q : Post) : Prop :=
  (post_createdAt q <= post_createdAt p)%Z.

#[global] Instance newer_first_dec p q : Decision (newer_first p q).
Proof. unfold newer_first. apply _. Defined.

(** [has_id id p]: a query for the identifier [id] selects [p].  [id] is a
    string of the request ([req.params.id]); Mongoose casts it to an ObjectId
    before the store compares, so a post answers to every spelling of its
    identifier that the cast accepts, while [post_id] is the one spelling
    that documents are serialized with.  A string that is no ObjectId selects
    nothing; that such a query is rejected (a [CastError]) is for the
    environment to say. *)
Definition has_id `{Platform} (id : string) (p : Post) : bool :=
  match ObjectId_cast id with
  | Some oid => String.eqb (post_id p) oid
  | None => false
  end.

(** [is_document oid p]: [p] is the document with the ObjectId [oid], for a
    lookup by a document's own [_id] ([findById(newPost._id)]), where nothing
    is cast. *)
Definition is_document (oid : string) (p : Post) : bool := String.eqb (post_id p) oid.

Definition with_content (content : string) (p : Post) : Post :=
  {| post_id := post_id p; post_content := content; post_author := post_author p;
     post_image := post_image p; post_tags := post_tags p;
     post_category := post_category p; post_createdAt := post_createdAt p |}.

(** Replace the first document with identifier [id]. *)
Fixpoint update_first `{Platform} (id content : string) (ps : list Post) : list Post :=
  match ps with
  | [] => []
  | p :: rest =>
      if has_id id p then with_content content p :: rest
      else p :: update_first id content rest
  end.

(** Remove the first document with identifier [id]. *)
Fixpoint delete_first `{Platform} (id : string) (ps : list Post) : list Post :=
  match ps with
  | [] => []
  | p :: rest => if has_id id p then rest else p :: delete_first id rest
  end.

Section Controllers.
Context `{Platform} (env : Env).

Local Open Scope ctl_scope.

(** An awaited collaborator call: traced, then rejected or performed. *)
Definition call {A} (c : Call) (effect : State -> A * State) : M A :=
  fun s =>
    match throws env (trace s) c with
    | Some e => (Throw e, log c s)
    | None => let '(a, s') := effect (log c s) in (Val a, s')
    end.

(** *** Cache Layer: [client.get], [client.set], [client.del] *)

Definition client_get (key : string) : M (option string) :=
  call (RedisGet key) (fun s => (fst <$> redis s !! key, s)).

(** Without [EX] the key is left with no expiry. *)
Definition client_set (key value : string) (EX : option N) : M unit :=
  call (RedisSet key value EX)
       (fun s => (tt, set_redis (<[key := (value, EX)]> (redis s)) s)).

Definition client_del (key : string) : M unit :=
  call (RedisDel key) (fun s => (tt, set_redis (delete key (redis s)) s)).

(** *** Content Store *)

Definition categoryModel_findOne (name : string) : M (option Category) :=
  call (CategoryFindOne name)
       (fun s => (List.find (fun c => String.eqb (category_name c) name) (categories s), s)).

(** [new categoryModel({ name }).save()] *)
Definition categoryModel_save (name : string) : M Category :=
  call (CategorySave name)
       (fun s =>
          let c := {| category_id := ObjectId_fresh (issued s); category_name := name |} in
          (c, bump_issued (set_categories (categories s ++ [c]) s))).

Definition postModel_create (content author : string) (image : option string)
    (tags : option (list string)) (category : string) : M Post :=
  call (PostCreate content author image tags category)
       (fun s =>
          let p := {| post_id := ObjectId_fresh (issued s); post_content := content;
                      post_author := author; post_image := image;
                      post_tags := default [] tags; post_category := category;
                      post_createdAt := now env |} in
          (p, bump_issued (set_posts (posts s ++ [p]) s))).

Definition postModel_findById (id : string) : M (option Post) :=
  call (PostFindById id) (fun s => (List.find (has_id id) (posts s), s)).

Definition postModel_findByIdAndUpdate (id content : string) : M (option Post) :=
  call (PostFindByIdAndUpdate id content)
       (fun s =>
          (with_content content <$> List.find (has_id id) (posts s),
           set_posts (update_first id content (posts s)) s)).

Definition postModel_findByIdAndDelete (id : string) : M (option Post) :=
  call (PostFindByIdAndDelete id)
       (fun s => (List.find (has_id id) (posts s),
                  set_posts (delete_first id (posts s)) s)).

(** *** Populated documents as JSON

    [populate('author', 'username profilePicture fullname')] and
    [populate('category', 'name')]; a dangling reference populates to
    [null]. *)
Definition author_toJSON (s : State) (id : string) : json :=
  match List.find (fun u => String.eqb (user_id u) id) (users s) with
  | Some u => JObj [ ("_id", JStr (user_id u));
                     ("username", JStr (user_username u));
                     ("profilePicture", JStr (user_profilePicture u));
                     ("fullname", JStr (user_fullname u)) ]
  | None => JNull
  end.

Definition category_toJSON (s : State) (id : string) : json :=
  match List.find (fun c => String.eqb (category_id c) id) (categories s) with
  | Some c => JObj [ ("_id", JStr (category_id c)); ("name", JStr (category_name c)) ]
  | None => JNull
  end.

Definition nullable (v : option string) : json :=
  match v with Some x => JStr x | None => JNull end.

Definition populated (s : State) (p : Post) : json :=
  JObj [ ("_id", JStr (post_id p));
         ("content", JStr (post_content p));
         ("author", author_toJSON s (post_author p));
         ("image", nullable (post_image p));
         ("tags", JArr (JStr <$> post_tags p));
         ("category", category_toJSON s (post_category p));
         ("createdAt", JStr (Date_toJSON (post_createdAt p))) ].

(** [postModel.findById(post._id).populate(..).populate(..)], by the [_id] of
    a document; [null] when absent. *)
Definition postModel_findById_populated (id : string) : M json :=
  call (PostFindByIdPopulated id)
       (fun s => (from_option (populated s) JNull
                    (List.find (is_document id) (posts s)), s)).

(** [postModel.find().sort({ createdAt: -1 }).populate(..).populate(..)] *)
Definition postModel_find_sorted_populated : M (list json) :=
  call PostFindSortedPopulated
       (fun s => (populated s <$> merge_sort newer_first (posts s), s)).

(** *** Asset uploader *)

(** [uploadedImage ? uploadedImage.secure_url : null] *)
Definition uploadOnCloudinary (path : string) : M (option string) :=
  call (CloudinaryUpload path) (fun s => (cloudinary env path, s)).

(** *** Response bodies *)

Definition failure (message : string) : json :=
  JObj [ ("success", JBool false); ("message", JStr message) ].

Definition failure_with (message : string) (error : Exn) : json :=
  JObj [ ("success", JBool false); ("message", JStr message);
         ("error", JStr (error_message error)) ].

Definition not_authenticated : Response :=
  {| status := 401; body := failure "You are not authenticated. Please Signin" |}.

(** *** [createPost] *)

Definition createPost_body (req : Request) : M Response :=
  let author := req_user req in
  if negb (truthy author) then reply not_authenticated else
  let author := default "" author in
  parsedData <- lift (zod_parse (createPostValidation (req_body req))) ;;
  let content := cp_content parsedData in
  let tags := cp_tags parsedData in
  let category := cp_category parsedData in
  found <- categoryModel_findOne category ;;
  categoryName <- match found with
                  | Some c => ret c
                  | None => categoryModel_save category
                  end ;;
  imageUrl <- match req_file req with
              | Some path =>
                  try_catch (uploadOnCloudinary path)
                    (fun uploadError =>
                       reply {| status := 500;
                                body := failure_with "Image upload to Cloudinary failed"
                                          uploadError |})
              | None => ret None
              end ;;
  newPost <- postModel_create content author imageUrl tags (category_id categoryName) ;;
  populatedPost <- postModel_findById_populated (post_id newPost) ;;
  cachedPosts <- client_get CACHE_KEY ;;
  (if truthy cachedPosts then
     parsed <- lift (parse (default "" cachedPosts)) ;;
     posts <- lift (as_array parsed) ;;
     client_set CACHE_KEY (JSON_stringify (JArr (populatedPost :: posts))) None
   else ret tt) ;;
  client_del (PROFILE_CACHE_KEY author) ;;
  client_del (POSTS_CACHE_KEY author) ;;
  ret {| status := 201;
         body := JObj [ ("success", JBool true);
                        ("data", JObj [ ("content", JStr (post_content newPost));
                                        ("author", JStr (post_author newPost));
                                        ("image", nullable imageUrl);
                                        ("tags", JArr (JStr <$> post_tags newPost));
                                        ("category", JStr (category_name categoryName)) ]);
                        ("message", JStr "Post created successfully") ] |}.

Definition createPost_catch (error : Exn) : Response :=
  match error with
  | ZodError errors =>
      {| status := 400;
         body := JObj [ ("success", JBool false);
                        ("message", JArr ((fun e => JStr (issue_message e)) <$> errors)) ] |}
  | _ => {| status := 500; body := failure_with "Failed to create post" error |}
  end.

Definition createPost (req : Request) : State -> Response * State :=
  controller (createPost_body req) createPost_catch.

(** *** [getAllPosts] *)

Definition cacheTTL : N := 43200.

Definition all_posts_retrieved (data : json) : Response :=
  {| status := 200;
     body := JObj [ ("success", JBool true); ("data", data);
                    ("message", JStr "All posts retrieved successfully") ] |}.

Definition getAllPosts_body : M Response :=
  getDataFromCache <- client_get CACHE_KEY ;;
  if truthy getDataFromCache then
    data <- lift (parse (default "" getDataFromCache)) ;;
    ret (all_posts_retrieved data)
  else
    allPosts <- postModel_find_sorted_populated ;;
    client_set CACHE_KEY (JSON_stringify (JArr allPosts)) (Some cacheTTL) ;;
    ret (all_posts_retrieved (JArr allPosts)).

Definition getAllPosts_catch (error : Exn) : Response :=
  {| status := 500; body := failure_with "Failed to get all posts" error |}.

Definition getAllPosts : State -> Response * State :=
  controller getAllPosts_body getAllPosts_catch.

(** *** [updatePost] *)

Definition updatePost_body (req : Request) : M Response :=
  let postId := req_id req in
  let userId := req_user req in
  if negb (truthy userId) then reply not_authenticated else
  let userId := default "" userId in
  parsedData <- lift (zod_parse (updatePostValidation (req_body req))) ;;
  post <- postModel_findById postId ;;
  match post with
  | None => reply {| status := 404; body := failure "Failed to update: Post not found" |}
  | Some post =>
      if negb (String.eqb (post_author post) userId) then
        reply {| status := 403;
                 body := failure "You are not authorized to update this post" |}
      else
        updatedPost <- postModel_findByIdAndUpdate postId (up_content parsedData) ;;
        match updatedPost with
        | None =>
            reply {| status := 404; body := failure "Failed to update: Post not found" |}
        | Some updatedPost =>
            populatedUpdatedPost <- postModel_findById_populated (post_id updatedPost) ;;
            cachedPosts <- client_get CACHE_KEY ;;
            (if truthy cachedPosts then
               parsed <- lift (parse (default "" cachedPosts)) ;;
               posts <- lift (as_array parsed) ;;
               postIndex <- lift (findIndex (id_is postId) posts 0) ;;
               match postIndex with
               | Some i =>
                   client_set CACHE_KEY
                     (JSON_stringify (JArr (<[i := populatedUpdatedPost]> posts))) None
               | None => ret tt
               end
             else ret tt) ;;
            client_del (PROFILE_CACHE_KEY userId) ;;
            client_del (POSTS_CACHE_KEY userId) ;;
            ret {| status := 200;
                   body := JObj [ ("success", JBool true);
                                  ("data", JObj [ ("post", populatedUpdatedPost) ]);
                                  ("message", JStr "Post updated successfully") ] |}
        end
  end.

Definition updatePost_catch (error : Exn) : Response :=
  {| status := 500; body := failure_with "Failed to update post" error |}.

Definition updatePost (req : Request) : State -> Response * State :=
  controller (updatePost_body req) updatePost_catch.

(** *** [deletePost] *)

Definition deletePost_body (req : Request) : M Response :=
  let postId := req_id req in
  let userId := req_user req in
  if negb (truthy userId) then reply not_authenticated else
  let userId := default "" userId in
  if negb (ObjectId_isValid postId) then
    reply {| status := 400; body := failure "Invalid post ID" |}
  else
  post <- postModel_findById postId ;;
  match post with
  | None => reply {| status := 404; body := failure "Failed to delete: Post not found" |}
  | Some post =>
      if negb (String.eqb (post_author post) userId) then
        reply {| status := 403;
                 body := failure "You are not authorized to delete this post" |}
      else
        deleted <- postModel_findByIdAndDelete postId ;;
        match deleted with
        | None =>
            reply {| status := 404; body := failure "Failed to delete: Post not found" |}
        | Some _ =>
            cachedPosts <- client_get CACHE_KEY ;;
            (if truthy cachedPosts then
               parsed <- lift (parse (default "" cachedPosts)) ;;
               posts <- lift (as_array parsed) ;;
               filteredPosts <- lift (filter_array (id_is_not postId) posts) ;;
               client_set CACHE_KEY (JSON_stringify (JArr filteredPosts)) None
             else ret tt) ;;
            client_del (PROFILE_CACHE_KEY userId) ;;
            client_del (POSTS_CACHE_KEY userId) ;;
            ret {| status := 200;
                   body := JObj [ ("success", JBool true);
                                  ("deletedPostId", JStr postId);
                                  ("message", JStr "Post deleted successfully") ] |}
        end
  end.

Definition deletePost_catch (error : Exn) : Response :=
  {| status := 500; body := failure_with "Failed to delete post" error |}.

Definition deletePost (req : Request) : State -> Response * State :=
  controller (deletePost_body req) deletePost_catch.
End Controllers.

(** ** A reference platform

    A concrete instance of [Platform], used to run the controllers on concrete
    requests: a compact JSON printer with its recursive-descent reader,
    24-digit hexadecimal identifiers, and Zod's default messages. *)
Module Reference.

Definition dquote : ascii := ascii_of_nat 34.
Definition backslash : ascii := ascii_of_nat 92.

Definition quoted (s : string) : string :=
  let fix esc (s : string) : string :=
    match s with
    | EmptyString => String dquote EmptyString
    | String a s' =>
        if (Ascii.eqb a dquote || Ascii.eqb a backslash)%bool
        then String backslash (String a (esc s'))
        else String a (esc s')
    end in
  String dquote (esc s).

Fixpoint stringify (v : json) : string :=
  match v with
  | JNull => "null"
  | JBool true => "true"
  | JBool false => "false"
  | JNum n => pretty n
  | JStr s => quoted s
  | JArr items =>
      let fix elems (l : list json) : string :=
        match l with
        | [] => "]"
        | [x] => (stringify x ++ "]")%string
        | x :: rest => (stringify x ++ "," ++ elems rest)%string
        end in
      ("[" ++ elems items)%string
  | JObj fields =>
      let fix members (l : list (string * json)) : string :=
        match l with
        | [] => "}"
        | [(k, x)] => (quoted k ++ ":" ++ stringify x ++ "}")%string
        | (k, x) :: rest => (quoted k ++ ":" ++ stringify x ++ "," ++ members rest)%string
        end in
      ("{" ++ members fields)%string
  end.

(** Reads the characters of a string literal after its opening quote. *)
Fixpoint read_string (s : string) : option (string * string) :=
  match s with
  | EmptyString => None
  | String a s' =>
      if Ascii.eqb a dquote then Some (EmptyString, s')
      else if Ascii.eqb a backslash then
        match s' with
        | String b s'' =>
            match read_string s'' with
            | Some (t, rest) => Some (String b t, rest)
            | None => None
            end
        | EmptyString => None
        end
      else
        match read_string s' with
        | Some (t, rest) => Some (String a t, rest)
        | None => None
        end
  end.

Definition digit (a : ascii) : option N :=
  let n := N_of_ascii a in
  if ((48 <=? n) && (n <=? 57))%N then Some (n - 48)%N else None.

Fixpoint read_digits (acc : N) (s : string) : N * string :=
  match s with
  | String a s' =>
      match digit a with
      | Some d => read_digits (10 * acc + d) s'
      | None => (acc, s)
      end
  | EmptyString => (acc, s)
  end.

Definition literal (word : string) (v : json) (s : string) : option (json * string) :=
  if String.prefix word s
  then Some (v, String.substring (String.length word) (String.length s - String.length word) s)
  else None.

Fixpoint read_value (fuel : nat) (s : string) : option (json * string) :=
  match fuel with
  | O => None
  | S fuel' =>
      match s with
      | EmptyString => None
      | String a s' =>
          if Ascii.eqb a dquote then
            match read_string s' with
            | Some (t, rest) => Some (JStr t, rest)
            | None => None
            end
          else if Ascii.eqb a "[" then
            match s' with
            | String "]" rest => Some (JArr [], rest)
            | _ => match read_elems fuel' s' with
                   | Some (l, rest) => Some (JArr l, rest)
                   | None => None
                   end
            end
          else if Ascii.eqb a "{" then
            match s' with
            | String "}" rest => Some (JObj [], rest)
            | _ => match read_members fuel' s' with
                   | Some (l, rest) => Some (JObj l, rest)
                   | None => None
                   end
            end
          else if Ascii.eqb a "-" then
            match s' with
            | String d _ =>
                match digit d with
                | Some _ => let '(n, rest) := read_digits 0 s' in
                            Some (JNum (- Z.of_N n), rest)
                | None => None
                end
            | EmptyString => None
            end
          else if Ascii.eqb a "n" then literal "null" JNull s
          else if Ascii.eqb a "t" then literal "true" (JBool true) s
          else if Ascii.eqb a "f" then literal "false" (JBool false) s
          else match digit a with
               | Some _ => let '(n, rest) := read_digits 0 s in
                           Some (JNum (Z.of_N n), rest)
               | None => None
               end
      end
  end
with read_elems (fuel : nat) (s : string) : option (list json * string) :=
  match fuel with
  | O => None
  | S fuel' =>
      match read_value fuel' s with
      | Some (v, String "," rest) =>
          match read_elems fuel' rest with
          | Some (l, rest') => Some (v :: l, rest')
          | None => None
          end
      | Some (v, String "]" rest) => Some ([v], rest)
      | _ => None
      end
  end
with read_members (fuel : nat) (s : string) : option (list (string * json) * string) :=
  match fuel with
  | O => None
  | S fuel' =>
      match s with
      | String q s' =>
          if Ascii.eqb q dquote then
            match read_string s' with
            | Some (k, String ":" rest) =>
                match read_value fuel' rest with
                | Some (v, String "," rest') =>
                    match read_members fuel' rest' with
                    | Some (l, rest'') => Some ((k, v) :: l, rest'')
                    | None => None
                    end
                | Some (v, String "}" rest') => Some ([(k, v)], rest')
                | _ => None
                end
            | _ => None
            end
          else None
      | EmptyString => None
      end
  end.

(** The whole text must be one value. *)
Definition parse_text (s : string) : option json :=
  match read_value (S (String.length s)) s with
  | Some (v, EmptyString) => Some v
  | _ => None
  end.

Definition is_hex (a : ascii) : bool :=
  let n := N_of_ascii a in
  ((48 <=? n) && (n <=? 57) || (65 <=? n) && (n <=? 70)
   || (97 <=? n) && (n <=? 102))%N%bool.

Fixpoint all_hex (s : string) : bool :=
  match s with
  | EmptyString => true
  | String a s' => is_hex a && all_hex s'
  end.

Definition isValid (id : string) : bool :=
  Nat.eqb (String.length id) 24 && all_hex id.

(** The cast reads 24 hexadecimal digits without regard to case; an ObjectId
    is spelled in lower case. *)
Definition lower_hex (a : ascii) : ascii :=
  let n := N_of_ascii a in
  if ((65 <=? n) && (n <=? 70))%N then ascii_of_N (n + 32) else a.

Fixpoint lower_case (s : string) : string :=
  match s with
  | EmptyString => EmptyString
  | String a s' => String (lower_hex a) (lower_case s')
  end.

Definition cast (id : string) : option string :=
  if isValid id then Some (lower_case id) else None.

Definition hex_digit (d : N) : ascii :=
  if (d <? 10)%N then ascii_of_N (48 + d) else ascii_of_N (87 + d).

Fixpoint hex_pad (width : nat) (n : N) (acc : string) : string :=
  match width with
  | O => acc
  | S w => hex_pad w (n / 16)%N (String (hex_digit (n mod 16)%N) acc)
  end.

Definition fresh (n : N) : string := hex_pad 24 n "".

Definition type_name (v : json) : string :=
  match v with
  | JNull => "null"
  | JBool _ => "boolean"
  | JNum _ => "number"
  | JStr _ => "string"
  | JArr _ => "array"
  | JObj _ => "object"
  end.

Definition invalid_type (expected : string) (received : option json) : string :=
  match received with
  | None => "Required"
  | Some v => ("Expected " ++ expected ++ ", received " ++ type_name v)%string
  end.

Definition message_of (e : Exn) : string :=
  match e with
  | ZodError _ => "Validation failed"
  | SyntaxError _ => "Unexpected token in JSON"
  | TypeError _ => "Cannot read properties"
  | Error m => m
  | NonError => ""
  end.

#[global] Instance platform : Platform := {|
  JSON_parse := parse_text;
  JSON_stringify := stringify;
  JSON_parse_empty := eq_refl;
  ObjectId_isValid := isValid;
  ObjectId_cast := cast;
  ObjectId_fresh := fresh;
  Date_toJSON := pretty;
  zod_invalid_type := invalid_type;
  engine_message := message_of
|}.

End Reference.


(** ** Vocabulary of the properties *)

(** The three mutating operations of the post service. *)
Inductive Mutation : Type := Create | Update | Delete.

Definition mutate `{Platform} (env : Env) (m : Mutation)
  : Request -> State -> Response * State :=
  match m with
  | Create => createPost env
  | Update => updatePost env
  | Delete => deletePost env
  end.

(** Status of the success response of each operation. *)
Definition success_status (m : Mutation) : nat :=
  match m with
  | Create => 201
  | Update | Delete => 200
  end.

(** No collaborator call rejects. *)
Definition reliable (env : Env) : Prop := forall h c, throws env h c = None.

(** The deserialized cache entry [p] carries the identifier [postId]. *)
Definition entry_has_id (postId : string) (p : json) : bool :=
  match p with
  | JObj fields =>
      match assoc "_id" fields with
      | Some (JStr s) => String.eqb s postId
      | _ => false
      end
  | _ => false
  end.

(** The caller carries the identity [U]. *)
Definition authenticated (req : Request) (U : string) : Prop :=
  req_user req = Some U /\ U <> "".

(** The Content Store holds the same documents. *)
Definition same_store (s s' : State) : Prop :=
  posts s' = posts s /\ categories s' = categories s /\ users s' = users s.

(** The identifier the store assigns as its [k]-th is not in use. *)
Definition unused `{Platform} (s : State) (k : N) : Prop :=
  Forall (fun p => post_id p <> ObjectId_fresh k) (posts s).

(** The identifiers a create request can be assigned (one for a new category,
    one for the post) are not in use. *)
Definition fresh_ids `{Platform} (s : State) : Prop :=
  unused s (issued s) /\ unused s (N.succ (issued s)).

(** The request is one the operation would carry out for its owner: the body
    passes the schema, the identifier is syntactically valid. *)
Definition well_formed `{Platform} (m : Mutation) (req : Request) : Prop :=
  match m with
  | Create => exists d, createPostValidation (req_body req) = Valid d
  | Update => exists d, updatePostValidation (req_body req) = Valid d
  | Delete => ObjectId_isValid (req_id req) = true
  end.

(** What a mutation leaves behind for its author: both derived keys are
    absent, and deleting them was the last thing the request did. *)
Definition invalidated (req : Request) (s s' : State) : Prop :=
  exists U calls,
    req_user req = Some U /\
    redis s' !! ("profile:" ++ U)%string = None /\
    redis s' !! ("posts:" ++ U)%string = None /\
    trace s' = trace s ++ calls /\
    [RedisDel ("profile:" ++ U)%string; RedisDel ("posts:" ++ U)%string]
      `suffix_of` calls.

(** The response a controller ends with. *)
Definition final (handler : Exn -> Response) (x : Res Response) : Response :=
  match x with
  | Val r => r
  | Reply r => r
  | Throw e => handler e
  end.

(** [ensures m s P]: running [m] from [s] ends in an outcome and a state
    that satisfy [P]. *)
Definition ensures {A} (m : M A) (s : State) (P : Res A -> State -> Prop) : Prop :=
  P (m s).1 (m s).2.

Definition then_ensures {A B} (k : A -> M B) (P : Res B -> State -> Prop)
  : Res A -> State -> Prop :=
  fun x s =>
    match x with
    | Val a => ensures (k a) s P
    | Reply r => P (Reply r) s
    | Throw e => P (Throw e) s
    end.

Definition catch_ensures {A} (h : Exn -> M A) (P : Res A -> State -> Prop)
  : Res A -> State -> Prop :=
  fun x s =>
    match x with
    | Throw e => ensures (h e) s P
    | other => P other s
    end.

(** ** A scenario on the reference platform

    Two users, one category, two posts; [warm] is the system after a first
    listing has populated the cache. *)
Module Scenario.
Import Reference.

Definition quiet : Env :=
  {| throws := fun _ _ => None;
     cloudinary := fun path => Some ("https://res.cloudinary.com/" ++ path)%string;
     now := 30 |}.

(** The Cache Layer is unreachable, the Content Store answers. *)
Definition cache_down : Env :=
  {| throws := fun _ c =>
       match c with
       | RedisGet _ | RedisSet _ _ _ | RedisDel _ => Some (Error "ECONNREFUSED")
       | _ => None
       end;
     cloudinary := cloudinary quiet;
     now := 30 |}.

(** The asset uploader fails. *)
Definition upload_down : Env :=
  {| throws := fun _ c =>
       match c with
       | CloudinaryUpload _ => Some (Error "Request Timeout")
       | _ => None
       end;
     cloudinary := cloudinary quiet;
     now := 30 |}.

Definition alice : User :=
  {| user_id := fresh 1; user_username := "alice"; user_fullname := "Alice";
     user_profilePicture := "alice.png" |}.

Definition bob : User :=
  {| user_id := fresh 2; user_username := "bob"; user_fullname := "Bob";
     user_profilePicture := "bob.png" |}.

Definition tech : Category := {| category_id := fresh 3; category_name := "tech" |}.

Definition first : Post :=
  {| post_id := fresh 4; post_content := "first"; post_author := user_id alice;
     post_image := None; post_tags := ["intro"]; post_category := category_id tech;
     post_createdAt := 10 |}.

Definition second : Post :=
  {| post_id := fresh 5; post_content := "second"; post_author := user_id bob;
     post_image := None; post_tags := []; post_category := category_id tech;
     post_createdAt := 20 |}.

Definition db : State :=
  {| posts := [first; second]; categories := [tech]; users := [alice; bob];
     redis := ∅; issued := 6; trace := [] |}.

(** The listing, newest first, and its cached text. *)
Definition listing : list json := [populated db second; populated db first].
Definition listing_text : string := stringify (JArr listing).

Definition warm : State := (getAllPosts quiet db).2.

Definition request (user : option string) (id : string) (body : option json)
    (file : option string) : Request :=
  {| req_user := user; req_id := id; req_body := body; req_file := file |}.

Definition hello : option json :=
  Some (JObj [ ("content", JStr " hello "); ("category", JStr "tech") ]).

Definition blank : option json :=
  Some (JObj [ ("content", JStr " "); ("category", JStr "tech") ]).

Definition edited : option json := Some (JObj [ ("content", JStr " edited ") ]).

Definition empty_body : option json := Some (JObj []).

Definition news_with_image : option json :=
  Some (JObj [ ("content", JStr "launch"); ("category", JStr "news") ]).

(** Requests of Alice. *)
Definition as_alice (id : string) (body : option json) (file : option string) : Request :=
  request (Some (user_id alice)) id body file.

Definition alice_posts_hello : Request := as_alice "" hello None.
Definition alice_posts_news : Request := as_alice "" news_with_image (Some "uploads/launch.png").
Definition alice_edits_first : Request := as_alice (post_id first) edited None.
Definition alice_edits_first_badly : Request := as_alice (post_id first) empty_body None.
Definition alice_edits_second : Request := as_alice (post_id second) edited None.
Definition alice_deletes_first : Request := as_alice (post_id first) None None.
Definition alice_deletes_second : Request := as_alice (post_id second) None None.
Definition alice_deletes_missing : Request := as_alice (fresh 9) None None.
Definition alice_deletes_nonsense : Request := as_alice "not-an-id" None None.

(** The warm system with Alice's derived views cached as well. *)
Definition busy : State :=
  set_redis (<[PROFILE_CACHE_KEY (user_id alice) := ("{}", Some 3600%N)]>
               (<[POSTS_CACHE_KEY (user_id alice) := ("[]", Some 3600%N)]> (redis warm)))
            warm.

(** Runs on the warm system. *)
Definition after_hello : Response * State := createPost quiet alice_posts_hello warm.
Definition after_edit : Response * State := updatePost quiet alice_edits_first warm.
Definition after_delete : Response * State := deletePost quiet alice_deletes_first warm.

End Scenario.

(** ** Lookups that bypass the cache: [getPostsById] *)

(** The fields of a user document a [populate] can select, in document
    order. *)
Definition user_fields (u : User) : list (string * json) :=
  [ ("username", JStr (user_username u));
    ("profilePicture", JStr (user_profilePicture u));
    ("fullname", JStr (user_fullname u)) ].

(** [populate('author', selection)]: the identifier and the selected fields
    that the document has; [null] for a dangling reference. *)
Definition select_author (s : State) (selection : list string) (id : string) : json :=
  match List.find (fun u => String.eqb (user_id u) id) (users s) with
  | Some u =>
      JObj (("_id", JStr (user_id u))
            :: List.filter (fun kv => bool_decide (kv.1 ∈ selection)) (user_fields u))
  | None => JNull
  end.

(** A post whose author is populated with [selection]; the category is
    populated or left as the stored reference. *)
Definition post_toJSON `{Platform} (s : State) (selection : list string)
    (with_category : bool) (p : Post) : json :=
  JObj [ ("_id", JStr (post_id p));
         ("content", JStr (post_content p));
         ("author", select_author s selection (post_author p));
         ("image", nullable (post_image p));
         ("tags", JArr (JStr <$> post_tags p));
         ("category", if with_category then category_toJSON s (post_category p)
                      else JStr (post_category p));
         ("createdAt", JStr (Date_toJSON (post_createdAt p))) ].

Section Lookups.
Context `{Platform} (env : Env).

Local Open Scope ctl_scope.

(** [postModel.findById(postId).populate('author', 'fullname')] *)
Definition postModel_findById_author (id : string) : M json :=
  call env (PostFindByIdPopulated id)
       (fun s => (from_option (post_toJSON s ["fullname"] false) JNull
                    (List.find (has_id id) (posts s)), s)).

(** [getPostsById]; [req_id] is the route parameter [postId]. *)
Definition getPostsById_body (req : Request) : M Response :=
  let postId := req_id req in
  postExists <- postModel_findById env postId ;;
  match postExists with
  | None => reply {| status := 404; body := failure "Post not found" |}
  | Some _ =>
      posts <- postModel_findById_author postId ;;
      ret {| status := 200;
             body := JObj [ ("success", JBool true);
                            ("data", JObj [ ("posts", posts) ]);
                            ("message", JStr "Posts retrieved successfully") ] |}
  end.

Definition getPostsById_catch (error : Exn) : Response :=
  {| status := 500; body := failure_with "Failed to get post details" error |}.

Definition getPostsById (req : Request) : State -> Response * State :=
  controller (getPostsById_body req) getPostsById_catch.

End Lookups.

(** ** Invariants of the Content Store *)

(** Every post refers to a category the store holds. *)
Definition categories_resolved (s : State) : Prop :=
  forall p, p ∈ posts s -> exists c, c ∈ categories s /\ category_id c = post_category p.

(** No two posts carry the same identifier. *)
Definition unique_ids (s : State) : Prop := NoDup (post_id <$> posts s).

(** The update may have rewritten the content of [p], nothing else. *)
Definition same_but_content `{Platform} (id : string) (p p' : Post) : Prop :=
  p' = p \/ (has_id id p = true /\ exists content, p' = with_content content p).

(** Calls that set a cache entry. *)
Definition is_redis_set (c : Call) : bool :=
  match c with
  | RedisSet _ _ _ => true
  | _ => false
  end.

(** The string begins, respectively ends, with white space. *)
Definition starts_with_space (s : string) : bool :=
  match s with
  | String a _ => is_js_space a
  | EmptyString => false
  end.

Fixpoint ends_with_space (s : string) : bool :=
  match s with
  | EmptyString => false
  | String a EmptyString => is_js_space a
  | String _ rest => ends_with_space rest
  end.


(** ** Comments, and the posts of a category

    [getPostsByCategory] and the comment controllers use neither the cache
    nor the uploader: they talk to the Content Store only, which also holds
    the comments.  They are modelled for identifiers spelled as documents
    carry them: the identifier of a request is compared as it is. *)

Record Comment := {
  comment_id : string;
  comment_post : string;      (* reference to a Post *)
  comment_author : string;    (* reference to a User *)
  comment_content : string
}.

(** The store queries these controllers await. *)
Inductive Query : Type :=
| CategoryFindById (id : string)
| PostFindByCategory (category : string)
| PostLookup (id : string)
| UserFindById (id : option string)
| CommentCreate (post author content : string)
| CommentFindPopulated (post : string)
| CommentCount (post : string)
| CommentFindById (id : string)
| CommentFindByIdAndUpdate (id : string) (content : json)
| CommentFindByIdAndDelete (id : string).

Record Forum := {
  store : State;              (* posts, categories, users, identifiers issued *)
  comments : list Comment;    (* in insertion order *)
  asked : list Query          (* queries, oldest first *)
}.

(** What [comment.validation] and [comment.model] decide; neither file is
    among the sources, so the development is parametric in them. *)
Class CommentSchema := {
  commentValidation : option json -> Parsed string; (* the [content] of an accepted body *)
  content_cast : json -> string                     (* stored form of an updated [content] *)
}.

(** The end of a handler: a response, or an error nobody caught. *)
Inductive Outcome : Type :=
| Sent (r : Response)
| Unhandled (e : Exn).

Definition F (A : Type) : Type := Forum -> Res A * Forum.

Definition f_ret {A} (a : A) : F A := fun f => (Val a, f).
Definition f_reply {A} (r : Response) : F A := fun f => (Reply r, f).

Definition f_bind {A B} (m : F A) (k : A -> F B) : F B :=
  fun f =>
    match m f with
    | (Val a, f') => k a f'
    | (Reply r, f') => (Reply r, f')
    | (Throw e, f') => (Throw e, f')
    end.

Definition f_lift {A} (t : Try A) : F A :=
  fun f => (match t with Done a => Val a | Raised e => Throw e end, f).

Declare Scope forum_scope.
Delimit Scope forum_scope with forum.
Notation "x <- m ;; k" := (f_bind m (fun x => k))
  (at level 100, m at next level, right associativity) : forum_scope.

(** [try { body } catch (error) { return handler(error) }] *)
Definition f_controller (body : F Response) (handler : Exn -> Response)
  : Forum -> Response * Forum :=
  fun f =>
    match body f with
    | (Val r, f') => (r, f')
    | (Reply r, f') => (r, f')
    | (Throw e, f') => (handler e, f')
    end.

Definition noted (q : Query) (f : Forum) : Forum :=
  {| store := store f; comments := comments f; asked := asked f ++ [q] |}.

Definition set_comments (cs : list Comment) (f : Forum) : Forum :=
  {| store := store f; comments := cs; asked := asked f |}.

Definition issue_id (f : Forum) : Forum :=
  {| store := bump_issued (store f); comments := comments f; asked := asked f |}.

(** JavaScript falsiness of a value read from a JSON body: [undefined],
    [null], [false], [0] and the empty string. *)
Definition falsy (v : option json) : bool :=
  match v with
  | None | Some JNull | Some (JBool false) | Some (JNum 0) | Some (JStr "") => true
  | Some _ => false
  end.

(** [const { key } = body]: throws on [undefined] and [null]; a value that is
    not an object has no such property. *)
Definition destructure (key : string) (body : option json) : Try (option json) :=
  match body with
  | None | Some JNull => Raised (TypeError JNull)
  | Some (JObj fields) => Done (assoc key fields)
  | Some _ => Done None
  end.

Definition comment_has_id (id : string) (c : Comment) : bool :=
  String.eqb (comment_id c) id.

Definition on_post (id : string) (c : Comment) : bool :=
  String.eqb (comment_post c) id.

Definition in_category (id : string) (p : Post) : bool :=
  String.eqb (post_category p) id.

(** [comment.author.toString() != userId], where [userId] may be
    [undefined]. *)
Definition not_author_of (c : Comment) (userId : option string) : bool :=
  match userId with
  | Some u => negb (String.eqb (comment_author c) u)
  | None => true
  end.

Definition recontent (content : string) (c : Comment) : Comment :=
  {| comment_id := comment_id c; comment_post := comment_post c;
     comment_author := comment_author c; comment_content := content |}.

Fixpoint update_comment (id content : string) (cs : list Comment) : list Comment :=
  match cs with
  | [] => []
  | c :: rest =>
      if comment_has_id id c then recontent content c :: rest
      else c :: update_comment id content rest
  end.

Fixpoint delete_comment (id : string) (cs : list Comment) : list Comment :=
  match cs with
  | [] => []
  | c :: rest => if comment_has_id id c then rest else c :: delete_comment id rest
  end.

(** The fields of a comment the controllers send back. *)
Definition comment_summary (c : Comment) : json :=
  JObj [ ("id", JStr (comment_id c));
         ("post", JStr (comment_post c));
         ("author", JStr (comment_author c));
         ("content", JStr (comment_content c)) ].

(** A comment document with
    [populate('author', 'fullname profilePicture')]. *)
Definition comment_toJSON (s : State) (c : Comment) : json :=
  JObj [ ("_id", JStr (comment_id c));
         ("post", JStr (comment_post c));
         ("author", select_author s ["fullname"; "profilePicture"] (comment_author c));
         ("content", JStr (comment_content c)) ].

(** [error.errors] of a [ZodError], by the fields of an issue. *)
Definition issue_toJSON (i : ZodIssue) : json :=
  JObj [ ("path", JArr (JStr <$> issue_path i)); ("message", JStr (issue_message i)) ].

Section ForumControllers.
Context `{Platform} `{CommentSchema} (rejects : list Query -> Query -> option Exn).

Local Open Scope forum_scope.

(** An awaited query: recorded, then rejected or performed. *)
Definition ask {A} (q : Query) (effect : Forum -> A * Forum) : F A :=
  fun f =>
    match rejects (asked f) q with
    | Some e => (Throw e, noted q f)
    | None => let '(a, f') := effect (noted q f) in (Val a, f')
    end.

Definition categoryModel_findById (id : string) : F (option Category) :=
  ask (CategoryFindById id)
      (fun f => (List.find (fun c => String.eqb (category_id c) id)
                           (categories (store f)), f)).

(** [postModel.find({ category }).populate('author', 'name').populate('category', 'name')] *)
Definition postModel_find_category (id : string) : F (list json) :=
  ask (PostFindByCategory id)
      (fun f => (post_toJSON (store f) ["name"] true
                   <$> List.filter (in_category id) (posts (store f)), f)).

Definition postModel_lookup (id : string) : F (option Post) :=
  ask (PostLookup id) (fun f => (List.find (is_document id) (posts (store f)), f)).

(** [findById(undefined)] matches no document. *)
Definition userModel_findById (id : option string) : F (option User) :=
  ask (UserFindById id)
      (fun f => (match id with
                 | Some u => List.find (fun x => String.eqb (user_id x) u)
                                       (users (store f))
                 | None => None
                 end, f)).

Definition commentModel_create (post author content : string) : F Comment :=
  ask (CommentCreate post author content)
      (fun f =>
         let c := {| comment_id := ObjectId_fresh (issued (store f));
                     comment_post := post; comment_author := author;
                     comment_content := content |} in
         (c, issue_id (set_comments (comments f ++ [c]) f))).

Definition commentModel_find_populated (post : string) : F (list json) :=
  ask (CommentFindPopulated post)
      (fun f => (comment_toJSON (store f) <$> List.filter (on_post post) (comments f), f)).

Definition commentModel_countDocuments (post : string) : F nat :=
  ask (CommentCount post)
      (fun f => (length (List.filter (on_post post) (comments f)), f)).

Definition commentModel_findById (id : string) : F (option Comment) :=
  ask (CommentFindById id)
      (fun f => (List.find (comment_has_id id) (comments f), f)).

(** [findByIdAndUpdate(id, { content }, { new: true })] *)
Definition commentModel_findByIdAndUpdate (id : string) (content : json)
  : F (option Comment) :=
  ask (CommentFindByIdAndUpdate id content)
      (fun f =>
         (recontent (content_cast content) <$> List.find (comment_has_id id) (comments f),
          set_comments (update_comment id (content_cast content) (comments f)) f)).

Definition commentModel_findByIdAndDelete (id : string) : F (option Comment) :=
  ask (CommentFindByIdAndDelete id)
      (fun f => (List.find (comment_has_id id) (comments f),
                 set_comments (delete_comment id (comments f)) f)).

(** *** [getPostsByCategory]; [req_id] is the route parameter [categoryId]. *)

Definition getPostsByCategory_body (req : Request) : F Response :=
  let categoryId := req_id req in
  categoryExists <- categoryModel_findById categoryId ;;
  match categoryExists with
  | None => f_reply {| status := 404; body := failure "Post not found" |}
  | Some _ =>
      posts <- postModel_find_category categoryId ;;
      f_ret {| status := 200;
               body := JObj [ ("success", JBool true);
                              ("data", JObj [ ("posts", JArr posts) ]);
                              ("message", JStr "Posts retrieved successfully") ] |}
  end.

Definition getPostsByCategory_catch (error : Exn) : Response :=
  {| status := 500; body := failure_with "Failed to get posts by category" error |}.

Definition getPostsByCategory (req : Request) : Forum -> Response * Forum :=
  f_controller (getPostsByCategory_body req) getPostsByCategory_catch.

(** *** [createComment]; [req_id] is the route parameter [postId].

    [user] is [null] whenever [authorId] is [undefined], so the creation is
    only reached with an identifier. *)

Definition createComment_body (req : Request) : F Response :=
  let postId := req_id req in
  let authorId := req_user req in
  content <- f_lift (zod_parse (commentValidation (req_body req))) ;;
  post <- postModel_lookup postId ;;
  user <- userModel_findById authorId ;;
  match post, user, authorId with
  | Some _, Some _, Some author =>
      comment <- commentModel_create postId author content ;;
      f_ret {| status := 201;
               body := JObj [ ("success", JBool true);
                              ("comment", comment_summary comment);
                              ("message", JStr "Comment created") ] |}
  | _, _, _ => f_reply {| status := 404; body := failure "Post or user not found" |}
  end.

Definition createComment_catch (error : Exn) : Response :=
  match error with
  | ZodError errors =>
      {| status := 400;
         body := JObj [ ("success", JBool false);
                        ("message", JStr "Validation failed");
                        ("errors", JArr (issue_toJSON <$> errors)) ] |}
  | _ => {| status := 500; body := failure_with "Failed to add comment" error |}
  end.

Definition createComment (req : Request) : Forum -> Response * Forum :=
  f_controller (createComment_body req) createComment_catch.

(** *** [getComments]: the post is looked up outside the [try] block. *)

Definition getComments_listing (postId : string) : F Response :=
  comment <- commentModel_find_populated postId ;;
  totalComments <- commentModel_countDocuments postId ;;
  f_ret {| status := 200;
           body := JObj [ ("success", JBool true);
                          ("comments", JArr comment);
                          ("totalComments", JNum (Z.of_nat totalComments)) ] |}.

Definition getComments_catch (error : Exn) : Response :=
  {| status := 500; body := failure_with "Failed to get comment" error |}.

Definition getComments (req : Request) : Forum -> Outcome * Forum :=
  fun f =>
    let postId := req_id req in
    match postModel_lookup postId f with
    | (Throw e, f') => (Unhandled e, f')
    | (Reply r, f') => (Sent r, f')
    | (Val None, f') => (Sent {| status := 404; body := failure "Post not found" |}, f')
    | (Val (Some _), f') =>
        let '(r, f'') := f_controller (getComments_listing postId) getComments_catch f' in
        (Sent r, f'')
    end.

(** *** [updateComment]; [req_id] is the route parameter [commentId]. *)

Definition updateComment_body (req : Request) : F Response :=
  let commentId := req_id req in
  let userId := req_user req in
  content <- f_lift (destructure "content" (req_body req)) ;;
  if falsy content
  then f_reply {| status := 400; body := failure "Content is required" |}
  else
    comment <- commentModel_findById commentId ;;
    match comment with
    | None => f_reply {| status := 404; body := failure "Comment not found" |}
    | Some comment =>
        if not_author_of comment userId
        then f_reply {| status := 403;
                        body := failure "You are not authorized to update this comment" |}
        else
          updatedComment <-
            commentModel_findByIdAndUpdate commentId (default JNull content) ;;
          match updatedComment with
          | None => f_reply {| status := 404; body := failure "Comment not found" |}
          | Some updatedComment =>
              f_ret {| status := 200;
                       body := JObj [ ("success", JBool true);
                                      ("comment", comment_summary updatedComment);
                                      ("message", JStr "Comment updated") ] |}
          end
    end.

Definition updateComment_catch (error : Exn) : Response :=
  {| status := 500; body := failure_with "Failed to update comment" error |}.

Definition updateComment (req : Request) : Forum -> Response * Forum :=
  f_controller (updateComment_body req) updateComment_catch.

(** *** [deleteComments]; [req_id] is the route parameter [commentId]. *)

Definition deleteComments_body (req : Request) : F Response :=
  let commentId := req_id req in
  let userId := req_user req in
  comment <- commentModel_findById commentId ;;
  match comment with
  | None => f_reply {| status := 404; body := failure "Comment not found" |}
  | Some comment =>
      if not_author_of comment userId
      then f_reply {| status := 403;
                      body := failure "You are not authorized to delete this comment" |}
      else
        deletedComment <- commentModel_findByIdAndDelete commentId ;;
        match deletedComment with
        | None => f_reply {| status := 404; body := failure "Comment not found" |}
        | Some deletedComment =>
            f_ret {| status := 200;
                     body := JObj [ ("success", JBool true);
                                    ("comment", comment_summary deletedComment);
                                    ("message", JStr "Comment deleted") ] |}
        end
  end.

Definition deleteComments_catch (error : Exn) : Response :=
  {| status := 500; body := failure_with "Failed to delete comment" error |}.

Definition deleteComments (req : Request) : Forum -> Response * Forum :=
  f_controller (deleteComments_body req) deleteComments_catch.

End ForumControllers.

(** Every query is answered. *)
Definition answering (rejects : list Query -> Query -> option Exn) : Prop :=
  forall history q, rejects history q = None.


(** ** Further scenarios on the reference platform *)
Module Cases.
Import Reference Scenario.

(** The busy system with Bob's profile cached as well. *)
Definition crowded : State :=
  set_redis (<[PROFILE_CACHE_KEY (user_id bob) := ("{}", Some 3600%N)]> (redis busy)) busy.

(** The cached list holds the newer post only. *)
Definition partial_listing : list json := [populated db second].
Definition partial_text : string := stringify (JArr partial_listing).
Definition partial : State :=
  set_redis (<[CACHE_KEY := (partial_text, Some 43200%N)]> ∅) db.

(** The cached list is not JSON. *)
Definition corrupt : State := set_redis (<[CACHE_KEY := ("oops", Some 43200%N)]> ∅) db.

(** What the schema makes of the body [hello]. *)
Definition hello_data : CreatePostData :=
  {| cp_content := "hello"; cp_tags := None; cp_category := "tech" |}.

Definition anyone_reads_first : Request := request None (post_id first) None None.

End Cases.

(** A thread of two comments under the first post of the scenario. *)
Module Thread.
Import Reference Scenario.

(** A schema that asks for a non-empty string, stored as it is; any other
    updated content is stored as its JSON text. *)
#[global] Instance schema : CommentSchema := {|
  commentValidation := fun body =>
    match body with
    | Some (JObj fields) =>
        match assoc "content" fields with
        | Some (JStr text) =>
            if String.eqb text ""
            then Invalid [ {| issue_path := ["content"];
                              issue_message := "Comment cannot be empty" |} ]
            else Valid text
        | _ => Invalid [ {| issue_path := ["content"]; issue_message := "Required" |} ]
        end
    | _ => Invalid [ {| issue_path := []; issue_message := "Required" |} ]
    end;
  content_cast := fun v => match v with JStr text => text | other => stringify other end
|}.

Definition answers : list Query -> Query -> option Exn := fun _ _ => None.

(** The store cannot look posts up. *)
Definition lookup_down : list Query -> Query -> option Exn :=
  fun _ q =>
    match q with
    | PostLookup _ => Some (Error "pool destroyed")
    | _ => None
    end.

Definition praise : Comment :=
  {| comment_id := fresh 6; comment_post := post_id first;
     comment_author := user_id bob; comment_content := "nice" |}.

Definition thanks : Comment :=
  {| comment_id := fresh 7; comment_post := post_id first;
     comment_author := user_id alice; comment_content := "thanks" |}.

Definition talk : Forum :=
  {| store := set_redis ∅ (bump_issued (bump_issued db));
     comments := [praise; thanks]; asked := [] |}.

Definition wording (text : string) : option json :=
  Some (JObj [ ("content", JStr text) ]).

Definition bob_comments_nothing : Request :=
  request (Some (user_id bob)) (post_id first) empty_body None.
Definition alice_rewrites_praise : Request :=
  request (Some (user_id alice)) (comment_id praise) (wording "bad") None.
Definition alice_rewrites_with_nothing : Request :=
  request (Some (user_id alice)) (comment_id praise) empty_body None.
Definition reads_first : Request := request None (post_id first) None None.


End Thread.

(** The documents of the scenario as they are sent and cached, written out. *)
Module Expected.

Definition alice : json :=
  JObj [ ("_id", JStr "000000000000000000000001"); ("username", JStr "alice");
         ("profilePicture", JStr "alice.png"); ("fullname", JStr "Alice") ].

Definition bob : json :=
  JObj [ ("_id", JStr "000000000000000000000002"); ("username", JStr "bob");
         ("profilePicture", JStr "bob.png"); ("fullname", JStr "Bob") ].

Definition tech : json :=
  JObj [ ("_id", JStr "000000000000000000000003"); ("name", JStr "tech") ].

Definition post (id content : string) (author : json) (tags : list json)
    (createdAt : string) : json :=
  JObj [ ("_id", JStr id); ("content", JStr content); ("author", author);
         ("image", JNull); ("tags", JArr tags); ("category", tech);
         ("createdAt", JStr createdAt) ].

Definition first : json :=
  post "000000000000000000000004" "first" alice [JStr "intro"] "10".

Definition second : json := post "000000000000000000000005" "second" bob [] "20".

(** The post that Alice creates on the warm system, and her edited post. *)
Definition hello : json := post "000000000000000000000006" "hello" alice [] "30".
Definition first_edited : json :=
  post "000000000000000000000004" "edited" alice [JStr "intro"] "10".

(** A third post of Alice, whose identifier has a hexadecimal letter. *)
Definition tenth : json := post "00000000000000000000000a" "tenth" alice [] "25".

End Expected.

(** An identifier with a hexadecimal letter, and a request that spells it in
    upper case. *)
Module Spelling.
Import Reference Scenario.

Definition tenth : Post :=
  {| post_id := fresh 10; post_content := "tenth"; post_author := user_id alice;
     post_image := None; post_tags := []; post_category := category_id tech;
     post_createdAt := 25 |}.

Definition shouted : string := "00000000000000000000000A".

Definition db : State :=
  {| posts := [first; second; tenth]; categories := [tech]; users := [alice; bob];
     redis := ∅; issued := 11; trace := [] |}.

(** The system after a first listing has populated the cache. *)
Definition warm : State := (getAllPosts quiet db).2.

Definition alice_edits_tenth : Request := as_alice shouted edited None.
Definition alice_deletes_tenth : Request := as_alice shouted None None.

End Spelling.


(** * Verification *)

(** ** Rules of the controller monad *)

Section Rules.
Context `{Platform} (env : Env).

Lemma ensures_bind {A B} (m : M A) (k : A -> M B) s P :
  ensures m s (then_ensures k P) -> ensures (bind m k) s P.
Proof.
  unfold ensures, then_ensures, bind.
  destruct (m s) as [[a|r|e] s1]; simpl; auto.
Qed.

Lemma ensures_ret {A} (a : A) s (P : Res A -> State -> Prop) :
  P (Val a) s -> ensures (ret a) s P.
Proof. auto. Qed.

Lemma ensures_reply {A} r s (P : Res A -> State -> Prop) :
  P (Reply r) s -> ensures (reply r) s P.
Proof. auto. Qed.

Lemma ensures_lift {A} (t : Try A) s (P : Res A -> State -> Prop) :
  (forall a, t = Done a -> P (Val a) s) ->
  (forall e, t = Raised e -> P (Throw e) s) ->
  ensures (lift t) s P.
Proof. unfold ensures, lift. destruct t; simpl; auto. Qed.

Lemma ensures_lift_Done {A} (a : A) s (P : Res A -> State -> Prop) :
  P (Val a) s -> ensures (lift (Done a)) s P.
Proof. auto. Qed.

Lemma ensures_lift_Raised {A} (e : Exn) s (P : Res A -> State -> Prop) :
  P (Throw e) s -> ensures (lift (Raised e)) s P.
Proof. auto. Qed.

Lemma ensures_call {A} c (effect : State -> A * State) s (P : Res A -> State -> Prop) :
  (forall e, throws env (trace s) c = Some e -> P (Throw e) (log c s)) ->
  (throws env (trace s) c = None ->
   P (Val (effect (log c s)).1) (effect (log c s)).2) ->
  ensures (call env c effect) s P.
Proof.
  unfold ensures, call. intros Hthrow Hok.
  destruct (throws env (trace s) c) as [e|]; simpl; [auto|].
  destruct (effect (log c s)) as [a s1]; simpl in *. auto.
Qed.

Lemma ensures_try_catch {A} (m : M A) h s (P : Res A -> State -> Prop) :
  ensures m s (catch_ensures h P) -> ensures (try_catch m h) s P.
Proof.
  unfold ensures, catch_ensures, try_catch.
  destruct (m s) as [[a|r|e] s1]; simpl; auto.
Qed.

Lemma controller_ensures body handler s (Q : Response -> State -> Prop) :
  ensures body s (fun x s' => Q (final handler x) s') ->
  Q (controller body handler s).1 (controller body handler s).2.
Proof.
  unfold ensures, controller. destruct (body s) as [[a|r|e] s1]; simpl; auto.
Qed.

Lemma controller_run body handler s (Q : Response -> State -> Prop) :
  ensures body s (fun x s1 => Q (final handler x) s1) ->
  forall r s', controller body handler s = (r, s') -> Q r s'.
Proof.
  intros HE r s' Hrun. apply controller_ensures in HE. rewrite Hrun in HE. exact HE.
Qed.

End Rules.

(** ** Symbolic execution of controller bodies *)

Ltac state_simpl :=
  cbn [fst snd posts categories users redis issued trace log set_redis set_posts
       set_categories bump_issued].

(** Use an equation of the context that tells the value of [x]. *)
Ltac known x :=
  match goal with
  | Hx : x = _ |- _ => rewrite Hx
  end.

(** After a collaborator call, use what the context says the cache and the
    store hold. *)
Ltac use_context :=
  match goal with
  | Hc : redis ?s !! ?k = _ |- context [redis ?s !! ?k] => rewrite Hc
  | Hf : List.find ?f ?l = _ |- context [List.find ?f ?l] => rewrite Hf
  end;
  cbn [fmap option_fmap option_map fst default from_option id].

(** One step of symbolic execution of a controller body. *)
Ltac wp_step :=
  lazymatch goal with
  | |- ensures (bind _ _) _ _ => apply ensures_bind
  | |- ensures (ret _) _ _ => apply ensures_ret
  | |- ensures (reply _) _ _ => apply ensures_reply
  | |- ensures (lift (Done _)) _ _ => apply ensures_lift_Done
  | |- ensures (lift (Raised _)) _ _ => apply ensures_lift_Raised
  | |- ensures (lift (as_array (JArr _))) _ _ => cbn [as_array]
  | |- ensures (lift (parse (default _ (Some _)))) _ _ => cbn [default from_option id]
  | |- ensures (lift ?t) _ _ =>
      first [ known t | apply ensures_lift; [intros ? ? | intros ? ?] ]
  | |- ensures (try_catch _ _) _ _ => apply ensures_try_catch
  | |- ensures (call _ _ _) _ _ =>
      apply ensures_call;
      [intros ? ? | intros ?; cbn beta; state_simpl; repeat use_context]
  | |- ensures (if ?b then _ else _) _ _ =>
      first [ known b; cbn iota | destruct b eqn:? ]
  | |- ensures (match ?x with _ => _ end) _ _ =>
      first [ known x; cbn iota | destruct x eqn:? ]
  | |- then_ensures _ _ _ _ => unfold then_ensures at 1; cbn beta iota
  | |- catch_ensures _ _ _ _ => unfold catch_ensures at 1; cbn beta iota
  | |- ensures _ _ _ =>
      progress unfold client_get, client_set, client_del, categoryModel_findOne,
        categoryModel_save, postModel_create, postModel_findById,
        postModel_findByIdAndUpdate, postModel_findByIdAndDelete,
        postModel_findById_populated, postModel_find_sorted_populated,
        uploadOnCloudinary
  end.

Ltac wp := repeat wp_step; cbn [final]; state_simpl.

(** Start the symbolic execution of a controller. *)
Ltac run_controller :=
  lazymatch goal with
  | |- forall r s', _ = (r, s') -> @?Q r s' =>
      refine (controller_run _ _ _ Q _)
  end.

Ltac clear_throws :=
  repeat match goal with H : throws _ _ _ = None |- _ => clear H end.

(** A path on which a call rejected, in a reliable environment. *)
Ltac unreliable Hrel :=
  match goal with
  | He : throws _ _ _ = Some _ |- _ => rewrite Hrel in He; discriminate He
  end.

(** Populating reads users and categories only. *)
Ltac same_documents s :=
  repeat match goal with
         | |- context [populated ?st ?p] =>
             lazymatch st with
             | s => fail
             | _ => change (populated st p) with (populated s p)
             end
         end.

(** A failed path cannot carry the success status. *)
Ltac not_success :=
  let Hst := fresh "Hst" in
  intros Hst; exfalso;
  first [ discriminate Hst
        | match type of Hst with
          | status (createPost_catch ?e) = _ => destruct e; discriminate Hst
          end ].

(** [suffix_of] goals on an explicit list of calls. *)
Ltac ends_with_loop :=
  first [ reflexivity | apply suffix_cons_r; ends_with_loop ].
Ltac ends_with := cbn [app]; ends_with_loop.

(** Bring what the context says about the oracle to one form. *)
Ltac oracle_norm :=
  repeat match goal with
         | Ht : context [throws _ _ _] |- _ =>
             progress (cbn [trace log set_redis set_posts set_categories bump_issued
                            posts categories users redis issued] in Ht;
                       rewrite <- ?app_assoc in Ht; cbn [app] in Ht)
         end.

(** The path contradicts what the oracle is known to answer. *)
Ltac oracle_clash :=
  oracle_norm;
  match goal with
  | Ha : throws ?e ?h ?c = Some _, Hb : throws ?e _ _ = None |- _ =>
      exfalso; let Hc := fresh in
      pose proof Hb as Hc; change (throws e h c = None) in Hc;
      rewrite Ha in Hc; discriminate Hc
  end.

(** The error of the path is the one the oracle is known to raise. *)
Ltac oracle_agree :=
  oracle_norm;
  match goal with
  | Ha : throws ?e ?h ?c = Some ?x, Hb : throws ?e _ _ = Some ?y |- _ =>
      is_var x;
      lazymatch x with y => fail | _ => idtac end;
      let Hc := fresh in
      pose proof Hb as Hc; change (throws e h c = Some y) in Hc;
      rewrite Ha in Hc; injection Hc as ->
  end.

(** ** Facts about the building blocks *)

Section Basics.
Context `{Platform}.

Lemma truthy_Some (v : option string) :
  truthy v = true -> exists s, v = Some s /\ s <> "".
Proof.
  destruct v as [s|]; [|discriminate]. simpl. intros Hs. exists s. split; [done|].
  intros ->. discriminate.
Qed.

Lemma not_truthy_false (v : option string) :
  negb (truthy v) = false -> exists s, v = Some s /\ s <> "".
Proof. intros Hv. apply truthy_Some. by destruct (truthy v). Qed.

Lemma truthy_nonempty (s : string) : s <> "" -> truthy (Some s) = true.
Proof. intros Hs. simpl. by destruct (String.eqb_spec s ""). Qed.

(** A cached text that deserializes is not the empty string. *)
Lemma parsed_truthy (v : string) (data : json) :
  JSON_parse v = Some data -> truthy (Some v) = true.
Proof.
  intros Hv. apply truthy_nonempty. intros ->.
  rewrite JSON_parse_empty in Hv. discriminate.
Qed.

Lemma parse_Done (v : string) (data : json) :
  JSON_parse v = Some data -> parse v = Done data.
Proof. unfold parse. by intros ->. Qed.

Lemma zod_parse_Done {A} (p : Parsed A) (a : A) : zod_parse p = Done a -> p = Valid a.
Proof. destruct p; simpl; congruence. Qed.

Lemma zod_parse_Raised {A} (p : Parsed A) (e : Exn) :
  zod_parse p = Raised e -> exists issues, p = Invalid issues /\ e = ZodError issues.
Proof. destruct p; simpl; [done|]. intros [= <-]. eauto. Qed.

Lemma has_id_eq id p : has_id id p = true -> ObjectId_cast id = Some (post_id p).
Proof.
  unfold has_id. destruct (ObjectId_cast id) as [oid|]; [|done].
  by intros ->%String.eqb_eq.
Qed.

Lemma has_id_same id p q : has_id id p = true -> has_id id q = true -> post_id q = post_id p.
Proof. intros Hp%has_id_eq Hq%has_id_eq. congruence. Qed.

(** A query by the spelling that documents carry selects by that spelling. *)
Lemma has_id_canonical id p :
  ObjectId_cast id = Some id -> has_id id p = is_document id p.
Proof. unfold has_id, is_document. by intros ->. Qed.

Lemma is_document_eq oid p : is_document oid p = true -> post_id p = oid.
Proof. unfold is_document. apply String.eqb_eq. Qed.

Lemma find_has_id id ps p :
  List.find (has_id id) ps = Some p -> ObjectId_cast id = Some (post_id p) /\ p ∈ ps.
Proof.
  intros Hf. apply List.find_some in Hf as [Hin Hid].
  split; [by apply has_id_eq | by apply list_elem_of_In].
Qed.

Lemma find_update_first id content ps p :
  List.find (has_id id) ps = Some p ->
  List.find (has_id id) (update_first id content ps) = Some (with_content content p).
Proof.
  induction ps as [|q ps IH]; simpl; [discriminate|].
  destruct (has_id id q) eqn:Hq.
  - intros [= ->]. simpl. unfold has_id in *. simpl. by rewrite Hq.
  - intros Hf. simpl. rewrite Hq. auto.
Qed.

Lemma find_delete_first_None id ps :
  List.find (has_id id) ps = None -> delete_first id ps = ps.
Proof.
  induction ps as [|q ps IH]; simpl; [done|].
  destruct (has_id id q); [discriminate|]. intros Hf. by rewrite IH.
Qed.

Lemma length_delete_first id ps p :
  List.find (has_id id) ps = Some p ->
  S (length (delete_first id ps)) = length ps.
Proof.
  induction ps as [|q ps IH]; simpl; [discriminate|].
  destruct (has_id id q); [done|]. intros Hf. simpl. by rewrite IH.
Qed.

Lemma find_new_post (ps : list Post) (p : Post) :
  Forall (fun q => post_id q <> post_id p) ps ->
  List.find (is_document (post_id p)) (ps ++ [p]) = Some p.
Proof.
  induction 1 as [|q ps Hq _ IH]; simpl.
  - unfold is_document. by rewrite String.eqb_refl.
  - destruct (is_document (post_id p) q) eqn:Hid; [|done].
    by apply is_document_eq in Hid.
Qed.

(** The document that an update by [id] rewrote is the one found under its
    own [_id] afterwards. *)
Lemma find_updated_document id content ps p :
  List.find (has_id id) ps = Some p ->
  List.find (is_document (post_id p)) (update_first id content ps)
  = Some (with_content content p).
Proof.
  induction ps as [|q ps IH]; simpl; [discriminate|].
  destruct (has_id id q) eqn:Hq.
  - intros [= ->]. simpl. unfold is_document. simpl. by rewrite String.eqb_refl.
  - intros Hf. simpl.
    destruct (is_document (post_id p) q) eqn:Hdoc; [|auto].
    apply is_document_eq in Hdoc. apply List.find_some in Hf as [_ Hp].
    unfold has_id in Hq, Hp. rewrite Hdoc in Hq. congruence.
Qed.

Lemma profile_key_not_list_key U : PROFILE_CACHE_KEY U <> CACHE_KEY.
Proof. unfold PROFILE_CACHE_KEY, CACHE_KEY. simpl. discriminate. Qed.

Lemma posts_key_not_list_key U : U <> "all" -> POSTS_CACHE_KEY U <> CACHE_KEY.
Proof.
  unfold POSTS_CACHE_KEY, CACHE_KEY. simpl. intros HU Heq. apply HU. by injection Heq.
Qed.

(** The rewritten list entry survives the invalidation of the author's keys. *)
Lemma list_entry_survives U (entry : string * option N) (m : gmap string (string * option N)) :
  U <> "all" ->
  delete (POSTS_CACHE_KEY U) (delete (PROFILE_CACHE_KEY U) (<[CACHE_KEY := entry]> m))
    !! CACHE_KEY = Some entry.
Proof.
  intros HU.
  rewrite lookup_delete_ne by (by apply posts_key_not_list_key).
  rewrite lookup_delete_ne by apply profile_key_not_list_key.
  by rewrite lookup_insert_eq.
Qed.

(** *** The callbacks of the cache patches *)

Lemma id_is_Done postId p b : id_is postId p = Done b -> b = entry_has_id postId p.
Proof. destruct p; simpl; intros; simplify_eq; done. Qed.

Lemma id_is_object postId p : p <> JNull -> id_is postId p = Done (entry_has_id postId p).
Proof. destruct p; simpl; done. Qed.

Lemma filter_array_Done postId items kept :
  filter_array (id_is_not postId) items = Done kept ->
  kept = List.filter (fun p => negb (entry_has_id postId p)) items.
Proof.
  revert kept. induction items as [|p items IH]; simpl; intros kept.
  - by intros [= <-].
  - unfold id_is_not at 1. destruct (id_is postId p) as [b|e] eqn:Hp; simpl; [|done].
    apply id_is_Done in Hp as ->.
    destruct (filter_array (id_is_not postId) items) as [kept'|e]; simpl; [|done].
    intros [= <-]. rewrite (IH kept' eq_refl). by destruct (entry_has_id postId p).
Qed.

Lemma filter_array_objects postId items :
  Forall (fun p => p <> JNull) items ->
  filter_array (id_is_not postId) items
  = Done (List.filter (fun p => negb (entry_has_id postId p)) items).
Proof.
  induction 1 as [|p items Hp _ IH]; simpl; [done|].
  unfold id_is_not at 1. rewrite (id_is_object _ _ Hp). simpl. rewrite IH. simpl.
  by destruct (entry_has_id postId p).
Qed.

Lemma filtered_has_no_id postId items :
  Forall (fun p => entry_has_id postId p = false)
         (List.filter (fun p => negb (entry_has_id postId p)) items).
Proof.
  apply Forall_forall. intros p Hp. apply list_elem_of_In, List.filter_In in Hp as [_ Hp].
  by destruct (entry_has_id postId p).
Qed.

(** [findIndex] returns the first position whose entry carries the identifier. *)
Lemma findIndex_Some postId items k i :
  findIndex (id_is postId) items k = Done (Some i) ->
  exists j old,
    i = k + j /\ items !! j = Some old /\ entry_has_id postId old = true /\
    forall j' p, j' < j -> items !! j' = Some p -> entry_has_id postId p = false.
Proof.
  revert k. induction items as [|p items IH]; simpl; intros k; [done|].
  destruct (id_is postId p) as [b|e] eqn:Hp; simpl; [|done].
  apply id_is_Done in Hp as ->.
  destruct (entry_has_id postId p) eqn:Hp.
  - intros [= <-]. exists 0, p. repeat split; [lia|done|lia].
  - intros Hf. apply IH in Hf as (j & old & -> & Hj & Hold & Hfirst).
    exists (S j), old. repeat split; [lia|done|done|].
    intros [|j'] q Hlt; simpl; [by intros [= <-]|]. apply Hfirst. lia.
Qed.

Lemma findIndex_None postId items k :
  findIndex (id_is postId) items k = Done None ->
  Forall (fun p => entry_has_id postId p = false) items.
Proof.
  revert k. induction items as [|p items IH]; simpl; intros k; [by constructor|].
  destruct (id_is postId p) as [b|e] eqn:Hp; simpl; [|done].
  apply id_is_Done in Hp as ->.
  destruct (entry_has_id postId p) eqn:Hp; [done|].
  intros Hf. constructor; [done|]. by eapply IH.
Qed.

(** *** Listing order *)

#[local] Instance newer_first_total : Total newer_first.
Proof. intros p q. unfold newer_first. lia. Qed.

#[local] Instance newer_first_trans : Transitive newer_first.
Proof. intros p q r. unfold newer_first. lia. Qed.

Lemma listing_sorted (ps : list Post) :
  StronglySorted newer_first (merge_sort newer_first ps)
  /\ merge_sort newer_first ps ≡ₚ ps.
Proof.
  split; [apply StronglySorted_merge_sort; apply _ | apply merge_sort_Permutation].
Qed.

End Basics.

(** ** Listing: the read-through cache *)

Section Listing.
Context `{Platform} (env : Env).

(** Claim C1.  A listing request that finds a value under ["posts:all"]
    answers 200 with exactly the deserialized cached value as its [data] and
    calls nothing but the cache read: the Content Store is not read.  A
    listing request that finds the cache empty queries the store for all
    posts, newest first, each with its author resolved to the user's
    identifier, username, profile picture and full name and its category
    resolved to the category's identifier and name; it writes the serialized
    result under ["posts:all"] with a TTL of 43200 seconds and answers 200
    with that same result as its [data]. *)
Theorem getAllPosts_read_through s r s' :
  getAllPosts env s = (r, s') ->
  (forall v ttl data,
     redis s !! CACHE_KEY = Some (v, ttl) ->
     JSON_parse v = Some data ->
     throws env (trace s) (RedisGet CACHE_KEY) = None ->
     r = {| status := 200;
            body := JObj [ ("success", JBool true); ("data", data);
                           ("message", JStr "All posts retrieved successfully") ] |} /\
     trace s' = trace s ++ [RedisGet CACHE_KEY] /\
     redis s' = redis s /\ same_store s s')
  /\
  (redis s !! CACHE_KEY = None ->
   reliable env ->
   let author := fun p =>
     match List.find (fun u => String.eqb (user_id u) (post_author p)) (users s) with
     | Some u => JObj [ ("_id", JStr (user_id u));
                        ("username", JStr (user_username u));
                        ("profilePicture", JStr (user_profilePicture u));
                        ("fullname", JStr (user_fullname u)) ]
     | None => JNull
     end in
   let category := fun p =>
     match List.find (fun c => String.eqb (category_id c) (post_category p))
                     (categories s) with
     | Some c => JObj [ ("_id", JStr (category_id c)); ("name", JStr (category_name c)) ]
     | None => JNull
     end in
   let resolved := fun p =>
     JObj [ ("_id", JStr (post_id p));
            ("content", JStr (post_content p));
            ("author", author p);
            ("image", match post_image p with Some url => JStr url | None => JNull end);
            ("tags", JArr (JStr <$> post_tags p));
            ("category", category p);
            ("createdAt", JStr (Date_toJSON (post_createdAt p))) ] in
   let listing := merge_sort newer_first (posts s) in
   let result := JArr (resolved <$> listing) in
   let text := JSON_stringify result in
   StronglySorted newer_first listing /\ listing ≡ₚ posts s /\
   r = {| status := 200;
          body := JObj [ ("success", JBool true); ("data", result);
                         ("message", JStr "All posts retrieved successfully") ] |} /\
   redis s' = <[CACHE_KEY := (text, Some 43200%N)]> (redis s) /\
   trace s' = trace s ++ [RedisGet CACHE_KEY; PostFindSortedPopulated;
                          RedisSet CACHE_KEY text (Some 43200%N)] /\
   same_store s s').
Proof.
  intros Hrun. split.
  - intros v ttl data Hv Hdata Hget.
    pose proof (parsed_truthy _ _ Hdata) as Htruthy.
    pose proof (parse_Done _ _ Hdata) as Hparse.
    revert r s' Hrun. run_controller. unfold getAllPosts_body.
    wp; [congruence|]. by repeat split.
  - intros Hmiss Hrel author category resolved listing result text. revert r s' Hrun.
    run_controller. unfold getAllPosts_body.
    wp; try unreliable Hrel; try discriminate.
    destruct (listing_sorted (posts s)) as [Hsorted Hperm].
    repeat split; try done. by rewrite <- !app_assoc.
Qed.

(** Once the cache is populated, a second listing is answered from it with
    the same data and without reading the store, provided the serialized
    listing reads back as itself. *)
Lemma getAllPosts_twice s :
  reliable env ->
  redis s !! CACHE_KEY = None ->
  let listing := JArr (populated s <$> merge_sort newer_first (posts s)) in
  JSON_parse (JSON_stringify listing) = Some listing ->
  let first := getAllPosts env s in
  let second := getAllPosts env first.2 in
  second.1 = first.1 /\ trace second.2 = trace first.2 ++ [RedisGet CACHE_KEY].
Proof.
  intros Hrel Hmiss listing Hround first second.
  assert (first = (all_posts_retrieved listing,
                   set_redis (<[CACHE_KEY := (JSON_stringify listing, Some cacheTTL)]> (redis s))
                     (log (RedisSet CACHE_KEY (JSON_stringify listing) (Some cacheTTL))
                        (log PostFindSortedPopulated (log (RedisGet CACHE_KEY) s))))) as Hfirst.
  { subst first. unfold getAllPosts, controller, getAllPosts_body, bind, client_get,
      client_set, postModel_find_sorted_populated, call, ret.
    rewrite !Hrel. state_simpl. rewrite Hmiss. cbn. rewrite !Hrel. reflexivity. }
  subst second. rewrite Hfirst. cbn [fst snd].
  pose proof (parsed_truthy _ _ Hround) as Htruthy.
  unfold getAllPosts, controller, getAllPosts_body, bind, client_get, call, ret, lift.
  rewrite !Hrel. state_simpl. rewrite lookup_insert_eq.
  cbn [fmap option_fmap option_map fst default from_option id].
  rewrite Htruthy. unfold parse. rewrite Hround. split; reflexivity.
Qed.

End Listing.

(** On the scenario: the first listing reads the store and fills the cache,
    the second one is answered from the cache alone; both send the two posts,
    newest first, with author and category resolved. *)
Lemma getAllPosts_read_through_witness :
  (getAllPosts Scenario.quiet Scenario.db).1
    = {| status := 200;
         body := JObj [ ("success", JBool true);
                        ("data", JArr [Expected.second; Expected.first]);
                        ("message", JStr "All posts retrieved successfully") ] |}
  /\ redis Scenario.warm !! CACHE_KEY = Some (Scenario.listing_text, Some 43200%N)
  /\ (getAllPosts Scenario.quiet Scenario.warm).1
       = {| status := 200;
            body := JObj [ ("success", JBool true);
                           ("data", JArr [Expected.second; Expected.first]);
                           ("message", JStr "All posts retrieved successfully") ] |}
  /\ trace (getAllPosts Scenario.quiet Scenario.warm).2
       = trace Scenario.warm ++ [RedisGet CACHE_KEY].
Proof.
  destruct (getAllPosts_read_through Scenario.quiet Scenario.db
              (getAllPosts Scenario.quiet Scenario.db).1 Scenario.warm)
    as [_ Hmiss]; [vm_compute; reflexivity|].
  destruct (getAllPosts_read_through Scenario.quiet Scenario.warm
              (getAllPosts Scenario.quiet Scenario.warm).1
              (getAllPosts Scenario.quiet Scenario.warm).2)
    as [Hhit _]; [vm_compute; reflexivity|].
  destruct Hmiss as (_ & _ & Hr & Hredis & _); [reflexivity | intros h c; reflexivity |].
  destruct (Hhit Scenario.listing_text (Some 43200%N)
              (JArr [Expected.second; Expected.first]))
    as (Hr' & Htrace & _); [vm_compute; reflexivity ..|].
  split; [rewrite Hr; vm_compute; reflexivity|].
  split; [rewrite Hredis; vm_compute; reflexivity|].
  split; [exact Hr' | exact Htrace].
Defined.

(** ** Creation: the new post goes first in the cached list *)

Section Creation.
Context `{Platform} (env : Env).

(** Claim C2.  When a creation succeeds while ["posts:all"] holds a cached
    list, the new post, fully resolved (its author as the user's identifier,
    username, profile picture and full name, its category as the category's
    identifier and name), is put at index 0 of the deserialized list, in
    front of the cached entries, which keep their content and order; the
    entry is rewritten with that list and with no TTL. *)
Theorem createPost_prepends_to_cached_list req s r s' v ttl cached :
  createPost env req s = (r, s') ->
  status r = 201 ->
  fresh_ids s ->
  redis s !! CACHE_KEY = Some (v, ttl) ->
  JSON_parse v = Some (JArr cached) ->
  exists U newPost calls,
    req_user req = Some U /\
    posts s' = posts s ++ [newPost] /\
    post_author newPost = U /\
    let author :=
      match List.find (fun u => String.eqb (user_id u) U) (users s') with
      | Some u => JObj [ ("_id", JStr (user_id u));
                         ("username", JStr (user_username u));
                         ("profilePicture", JStr (user_profilePicture u));
                         ("fullname", JStr (user_fullname u)) ]
      | None => JNull
      end in
    let category :=
      match List.find (fun c => String.eqb (category_id c) (post_category newPost))
                      (categories s') with
      | Some c => JObj [ ("_id", JStr (category_id c)); ("name", JStr (category_name c)) ]
      | None => JNull
      end in
    let resolved :=
      JObj [ ("_id", JStr (post_id newPost));
             ("content", JStr (post_content newPost));
             ("author", author);
             ("image", match post_image newPost with Some url => JStr url | None => JNull end);
             ("tags", JArr (JStr <$> post_tags newPost));
             ("category", category);
             ("createdAt", JStr (Date_toJSON (post_createdAt newPost))) ] in
    let entries := resolved :: cached in
    let text := JSON_stringify (JArr entries) in
    entries !! 0 = Some resolved /\
    (forall i, entries !! S i = cached !! i) /\
    trace s' = trace s ++ calls /\
    [RedisSet CACHE_KEY text None;
     RedisDel (PROFILE_CACHE_KEY U); RedisDel (POSTS_CACHE_KEY U)] `suffix_of` calls /\
    redis s' = delete (POSTS_CACHE_KEY U) (delete (PROFILE_CACHE_KEY U)
                 (<[CACHE_KEY := (text, None)]> (redis s))) /\
    (U <> "all" -> redis s' !! CACHE_KEY = Some (text, None)).
Proof.
  intros Hrun Hst [Hfresh0 Hfresh1] Hv Hcached.
  pose proof (parsed_truthy _ _ Hcached) as Htruthy.
  pose proof (parse_Done _ _ Hcached) as Hparse.
  revert r s' Hrun Hst. run_controller. unfold createPost_body.
  destruct (negb (truthy (req_user req))) eqn:Hauth; [wp; not_success|].
  apply not_truthy_false in Hauth as (U & HU & _). rewrite HU.
  cbn [default from_option id].
  wp; try not_success.
  all: intros _; clear_throws.
  all: rewrite find_new_post by assumption.
  all: cbn [from_option].
  all: eexists U, _, _; split; [reflexivity|]; split; [reflexivity|].
  all: split; [reflexivity|]; cbn zeta.
  all: split; [reflexivity|]; split; [reflexivity|].
  all: split; [rewrite <- !app_assoc; reflexivity|]; split; [ends_with|].
  all: split; [reflexivity|]; apply list_entry_survives.
Qed.

End Creation.

(** On the scenario: Alice posts while the listing is cached; the rewritten
    entry deserializes to her resolved post followed by the two cached
    ones. *)
Lemma createPost_prepends_witness :
  exists text,
    JSON_parse text = Some (JArr [Expected.hello; Expected.second; Expected.first]) /\
    redis Scenario.after_hello.2 !! CACHE_KEY = Some (text, None).
Proof.
  destruct (createPost_prepends_to_cached_list Scenario.quiet
              Scenario.alice_posts_hello Scenario.warm
              Scenario.after_hello.1 Scenario.after_hello.2
              Scenario.listing_text (Some 43200%N) Scenario.listing)
    as (U & newPost & calls & HU & Hposts & _ & _ & _ & _ & _ & _ & Hentry).
  - vm_compute; reflexivity.
  - vm_compute; reflexivity.
  - split; repeat constructor; vm_compute; discriminate.
  - vm_compute; reflexivity.
  - vm_compute; reflexivity.
  - injection HU as <-. vm_compute in Hposts. injection Hposts as <-.
    eexists. split; cycle 1.
    + apply Hentry. vm_compute; discriminate.
    + vm_compute; reflexivity.
Defined.

(** ** Update: the cached entry is replaced in place *)

Section Update.
Context `{Platform} (env : Env).

(** Claim C3, as the code has it.  When an update succeeds while
    ["posts:all"] holds a cached list, the list is searched for the first
    entry whose [_id] is the identifier as the request spells it.  If there
    is one, it is replaced by the re-resolved updated post (new content, its
    author as the user's identifier, username, profile picture and full
    name, its category as identifier and name): it keeps its position, the
    list keeps its length, every other entry is unchanged, and the cache
    entry is rewritten with the patched list.  If there is none, the cached
    list is left as it is.  The store, however, finds the post under every
    spelling of its identifier that casts to it, while the entries of the
    list carry the one spelling of documents: a request that spells the
    identifier differently updates the post and leaves its cached entry
    stale. *)
Theorem updatePost_patches_cached_entry req s r s' v ttl cached :
  updatePost env req s = (r, s') ->
  status r = 200 ->
  redis s !! CACHE_KEY = Some (v, ttl) ->
  JSON_parse v = Some (JArr cached) ->
  exists U d post calls,
    req_user req = Some U /\
    updatePostValidation (req_body req) = Valid d /\
    List.find (has_id (req_id req)) (posts s) = Some post /\
    ObjectId_cast (req_id req) = Some (post_id post) /\
    posts s' = update_first (req_id req) (up_content d) (posts s) /\
    List.find (has_id (req_id req)) (posts s') = Some (with_content (up_content d) post) /\
    trace s' = trace s ++ calls /\
    let author :=
      match List.find (fun u => String.eqb (user_id u) (post_author post)) (users s') with
      | Some u => JObj [ ("_id", JStr (user_id u));
                         ("username", JStr (user_username u));
                         ("profilePicture", JStr (user_profilePicture u));
                         ("fullname", JStr (user_fullname u)) ]
      | None => JNull
      end in
    let category :=
      match List.find (fun c => String.eqb (category_id c) (post_category post))
                      (categories s') with
      | Some c => JObj [ ("_id", JStr (category_id c)); ("name", JStr (category_name c)) ]
      | None => JNull
      end in
    let resolved :=
      JObj [ ("_id", JStr (post_id post));
             ("content", JStr (up_content d));
             ("author", author);
             ("image", match post_image post with Some url => JStr url | None => JNull end);
             ("tags", JArr (JStr <$> post_tags post));
             ("category", category);
             ("createdAt", JStr (Date_toJSON (post_createdAt post))) ] in
    ((exists p, p ∈ cached /\ entry_has_id (req_id req) p = true) ->
     exists i old,
       cached !! i = Some old /\ entry_has_id (req_id req) old = true /\
       (forall j p, j < i -> cached !! j = Some p ->
                    entry_has_id (req_id req) p = false) /\
       let patched := <[i := resolved]> cached in
       let text := JSON_stringify (JArr patched) in
       length patched = length cached /\
       patched !! i = Some resolved /\
       (forall j, j <> i -> patched !! j = cached !! j) /\
       [RedisSet CACHE_KEY text None;
        RedisDel (PROFILE_CACHE_KEY U); RedisDel (POSTS_CACHE_KEY U)] `suffix_of` calls /\
       redis s' = delete (POSTS_CACHE_KEY U) (delete (PROFILE_CACHE_KEY U)
                    (<[CACHE_KEY := (text, None)]> (redis s))) /\
       (U <> "all" -> redis s' !! CACHE_KEY = Some (text, None)))
    /\
    (Forall (fun p => entry_has_id (req_id req) p = false) cached ->
     Forall (fun c => is_redis_set c = false) calls /\
     redis s' = delete (POSTS_CACHE_KEY U) (delete (PROFILE_CACHE_KEY U) (redis s)) /\
     (U <> "all" -> redis s' !! CACHE_KEY = Some (v, ttl))).
Proof.
  intros Hrun Hst Hv Hcached.
  pose proof (parsed_truthy _ _ Hcached) as Htruthy.
  pose proof (parse_Done _ _ Hcached) as Hparse.
  revert r s' Hrun Hst. run_controller. unfold updatePost_body.
  destruct (negb (truthy (req_user req))) eqn:Hauth; [wp; not_success|].
  apply not_truthy_false in Hauth as (U & HU & _). rewrite HU.
  cbn [default from_option id].
  wp; try not_success.
  all: intros _; clear_throws; subst.
  all: match goal with
       | Hf : List.find (has_id _) (posts _) = Some ?q |- _ =>
           pose proof (find_has_id _ _ _ Hf) as [Hid _];
           pose proof (find_update_first _ (up_content a) _ _ Hf) as Hupdated;
           change (post_id (with_content (up_content a) q)) with (post_id q);
           rewrite ?(find_updated_document _ _ _ _ Hf); cbn [from_option]
       end.
  all: match goal with
       | Hz : zod_parse _ = Done _ |- _ => apply zod_parse_Done in Hz
       end.
  all: eexists U, a, _, _.
  all: do 6 (split; [done|]).
  all: split; [rewrite <- !app_assoc; reflexivity|].
  - match goal with
    | Hf : findIndex _ _ _ = Done (Some _) |- _ =>
        apply findIndex_Some in Hf as (j & old & -> & Hj & Hold & Hfirst)
    end.
    cbn [Nat.add]. split.
    + intros _. exists j, old. do 3 (split; [done|]).
      split; [apply length_insert|].
      split; [apply list_lookup_insert_eq; by eapply lookup_lt_Some|].
      split; [intros j' Hj'; by apply list_lookup_insert_ne|].
      split; [ends_with|]. split; [reflexivity|]. apply list_entry_survives.
    + intros Habsent. rewrite Forall_forall in Habsent.
      rewrite (Habsent old) in Hold by (by eapply list_elem_of_lookup_2).
      discriminate.
  - match goal with
    | Hf : findIndex _ _ _ = Done None |- _ =>
        apply findIndex_None in Hf; rewrite Forall_forall in Hf
    end.
    split.
    + intros (entry & Hentry & Hspelled).
      match goal with
      | Hf : forall x, x ∈ cached -> _ |- _ => specialize (Hf _ Hentry); congruence
      end.
    + intros _. split; [by repeat constructor|]. split; [done|]. intros HUall.
      rewrite lookup_delete_ne by (by apply posts_key_not_list_key).
      by rewrite lookup_delete_ne by apply profile_key_not_list_key.
Qed.

End Update.

(** On the scenario: Alice edits her post, the second entry of the cached
    listing, under the identifier as documents spell it; the rewritten entry
    deserializes to the listing with that entry replaced by the re-resolved
    post. *)
Lemma updatePost_patches_witness :
  exists text,
    JSON_parse text = Some (JArr [Expected.second; Expected.first_edited]) /\
    redis Scenario.after_edit.2 !! CACHE_KEY = Some (text, None).
Proof.
  destruct (updatePost_patches_cached_entry Scenario.quiet
              Scenario.alice_edits_first Scenario.warm
              Scenario.after_edit.1 Scenario.after_edit.2
              Scenario.listing_text (Some 43200%N) Scenario.listing)
    as (U & d & post & calls & HU & Hd & Hpost & _ & _ & _ & _ & Hpatched & _).
  - vm_compute; reflexivity.
  - vm_compute; reflexivity.
  - vm_compute; reflexivity.
  - vm_compute; reflexivity.
  - injection HU as <-. vm_compute in Hd. injection Hd as <-.
    vm_compute in Hpost. injection Hpost as <-.
    destruct Hpatched as (i & old & Hi & Hold & _ & _ & _ & _ & _ & _ & Hentry).
    { exists (populated Scenario.db Scenario.first). split; [|vm_compute; reflexivity].
      apply list_elem_of_In. right. left. reflexivity. }
    destruct i as [|[|i]]; vm_compute in Hi; [| |discriminate Hi].
    + injection Hi as <-. vm_compute in Hold. discriminate Hold.
    + eexists. split; cycle 1.
      * apply Hentry. vm_compute; discriminate.
      * vm_compute; reflexivity.
Defined.

(** Claim C3 fails on the code: Alice updates her post under the upper-case
    spelling of its identifier.  The store casts the identifier, finds the
    post and rewrites its content; the cached list is searched for the
    spelling of the request, which no entry carries, and is left as it was:
    it still holds the entry of the updated post with the old content. *)
Lemma updatePost_other_spelling_leaves_entry_stale :
  status (updatePost Scenario.quiet Spelling.alice_edits_tenth Spelling.warm).1 = 200
  /\ List.find (is_document (post_id Spelling.tenth))
       (posts (updatePost Scenario.quiet Spelling.alice_edits_tenth Spelling.warm).2)
     = Some (with_content "edited" Spelling.tenth)
  /\ exists text,
       redis (updatePost Scenario.quiet Spelling.alice_edits_tenth Spelling.warm).2
         !! CACHE_KEY = Some (text, Some 43200%N)
       /\ JSON_parse text
          = Some (JArr [Expected.tenth; Expected.second; Expected.first])
       /\ entry_has_id (post_id Spelling.tenth) Expected.tenth = true
       /\ assoc "content" (match Expected.tenth with JObj fields => fields | _ => [] end)
          = Some (JStr "tenth").
Proof.
  split; [vm_compute; reflexivity|]. split; [vm_compute; reflexivity|].
  eexists. split; [vm_compute; reflexivity|].
  split; [vm_compute; reflexivity|]. split; vm_compute; reflexivity.
Qed.

(** ** Deletion: preconditions in order, then the cached list is filtered *)

Section Deletion.
Context `{Platform} (env : Env).

(** Claim C4, as the code has it.  A delete request of an authenticated
    caller checks its preconditions in order: an identifier that is not
    syntactically valid yields 400 and no collaborator is called; a missing
    post yields 404; a post of another author yields 403; in these three
    cases the store is unchanged.  Only when all pass is the post removed
    from the store; if ["posts:all"] holds a cached list, the entries whose
    [_id] is the identifier as the request spells it are filtered out and the
    entry is rewritten with the entries that are left, every other entry
    among them.  When the request spells the identifier as documents do, no
    entry of the rewritten list carries the identifier of the deleted post.
    The store, however, finds the post under every spelling that casts to
    its identifier: under another spelling the post is removed from the
    store and its entry stays in the cached list. *)
Theorem deletePost_checks_then_filters req s U r s' :
  deletePost env req s = (r, s') ->
  authenticated req U ->
  reliable env ->
  let postId := req_id req in
  (ObjectId_isValid postId = false ->
     r = {| status := 400; body := failure "Invalid post ID" |} /\ s' = s)
  /\
  (ObjectId_isValid postId = true ->
   List.find (has_id postId) (posts s) = None ->
     status r = 404 /\ same_store s s' /\ trace s' = trace s ++ [PostFindById postId])
  /\
  (ObjectId_isValid postId = true ->
   forall post, List.find (has_id postId) (posts s) = Some post ->
   post_author post <> U ->
     status r = 403 /\ same_store s s' /\ trace s' = trace s ++ [PostFindById postId])
  /\
  (ObjectId_isValid postId = true ->
   forall post, List.find (has_id postId) (posts s) = Some post ->
   post_author post = U ->
     ObjectId_cast postId = Some (post_id post) /\
     posts s' = delete_first postId (posts s) /\
     S (length (posts s')) = length (posts s) /\
     forall v ttl cached,
       redis s !! CACHE_KEY = Some (v, ttl) ->
       JSON_parse v = Some (JArr cached) ->
       Forall (fun p => p <> JNull) cached ->
       let kept := List.filter (fun p => negb (entry_has_id postId p)) cached in
       let text := JSON_stringify (JArr kept) in
       status r = 200 /\
       Forall (fun p => entry_has_id postId p = false) kept /\
       (forall p, p ∈ cached -> entry_has_id postId p = false -> p ∈ kept) /\
       (postId = post_id post ->
        Forall (fun p => entry_has_id (post_id post) p = false) kept) /\
       trace s' = trace s ++ [PostFindById postId; PostFindByIdAndDelete postId;
                              RedisGet CACHE_KEY; RedisSet CACHE_KEY text None;
                              RedisDel (PROFILE_CACHE_KEY U);
                              RedisDel (POSTS_CACHE_KEY U)] /\
       redis s' = delete (POSTS_CACHE_KEY U) (delete (PROFILE_CACHE_KEY U)
                    (<[CACHE_KEY := (text, None)]> (redis s))) /\
       (U <> "all" -> redis s' !! CACHE_KEY = Some (text, None))).
Proof.
  intros Hrun [HU HUne] Hrel postId. subst postId.
  pose proof (truthy_nonempty _ HUne) as Hauth.
  revert r s' Hrun. run_controller. unfold deletePost_body.
  rewrite HU, Hauth. cbn [negb default from_option id].
  destruct (ObjectId_isValid (req_id req)) eqn:Hvalid; cbn [negb].
  2: { wp. repeat split; intros; done. }
  destruct (List.find (has_id (req_id req)) (posts s)) as [post|] eqn:Hfind.
  2: { wp; try unreliable Hrel. repeat split; intros; simplify_eq; done. }
  destruct (String.eqb_spec (post_author post) U) as [Hown|Hown].
  2: { assert (negb (post_author post =? U) = true) as Hforbidden
         by (by apply negb_true_iff, String.eqb_neq).
       wp; try unreliable Hrel. repeat split; intros; simplify_eq; done. }
  assert (negb (post_author post =? U) = false) as Hallowed
    by (by apply negb_false_iff, String.eqb_eq).
  wp; try unreliable Hrel; clear_throws.
  all: do 3 (split; [intros; simplify_eq; done|]).
  all: intros _ post' [= <-] _.
  all: split; [by apply (find_has_id _ _ _ Hfind)|]; split; [done|].
  all: split; [by apply (length_delete_first _ _ _ Hfind)|].
  all: intros v ttl cached Hv Hcached Hobj.
  all: pose proof (parsed_truthy _ _ Hcached) as Htruthy.
  all: pose proof (parse_Done _ _ Hcached) as Hparse.
  all: pose proof (filter_array_objects (req_id req) _ Hobj) as Hfilter.
  all: rewrite Hv in *; cbn [fmap option_fmap option_map fst default from_option id] in *.
  all: try congruence.
  all: match goal with
       | Hp : parse _ = Done ?a |- _ =>
           assert (a = JArr cached) by congruence; subst a; cbn [as_array] in *
       end.
  all: simplify_eq.
  all: try (match goal with
            | Hf : filter_array _ _ = Raised _ |- _ => rewrite Hfilter in Hf
            | Hf : filter_array _ _ = Done ?k |- _ => is_var k; rewrite Hfilter in Hf
            end; simplify_eq).
  split; [done|]. split; [apply filtered_has_no_id|].
  split.
  { intros p Hp Hother. apply list_elem_of_In, filter_In.
    split; [by apply list_elem_of_In | by rewrite Hother]. }
  split; [intros <-; apply filtered_has_no_id|].
  split; [by rewrite <- !app_assoc|]. split; [done|]. apply list_entry_survives.
Qed.

End Deletion.

(** On the scenario, as Alice: a malformed identifier, an identifier of no
    post, Bob's post, and her own post while the listing is cached. *)
Lemma deletePost_checks_witness :
  status (deletePost Scenario.quiet Scenario.alice_deletes_nonsense Scenario.warm).1 = 400
  /\ status (deletePost Scenario.quiet Scenario.alice_deletes_missing Scenario.warm).1 = 404
  /\ status (deletePost Scenario.quiet Scenario.alice_deletes_second Scenario.warm).1 = 403
  /\ status Scenario.after_delete.1 = 200
  /\ posts Scenario.after_delete.2 = [Scenario.second]
  /\ exists text,
       JSON_parse text = Some (JArr [Expected.second]) /\
       redis Scenario.after_delete.2 !! CACHE_KEY = Some (text, None).
Proof.
  assert (authenticated Scenario.alice_deletes_nonsense (user_id Scenario.alice)) as Ha
    by (split; [reflexivity | vm_compute; discriminate]).
  assert (reliable Scenario.quiet) as Hq by (intros h c; reflexivity).
  split; [|split; [|split; [|split; [|split]]]].
  - destruct (deletePost_checks_then_filters Scenario.quiet
                Scenario.alice_deletes_nonsense Scenario.warm _ _ _
                (surjective_pairing _) Ha Hq) as (H400 & _).
    assert (ObjectId_isValid "not-an-id" = false) as Hbad by (vm_compute; reflexivity).
    destruct (H400 Hbad) as [Hr _]. rewrite Hr. reflexivity.
  - destruct (deletePost_checks_then_filters Scenario.quiet
                Scenario.alice_deletes_missing Scenario.warm _ _ _
                (surjective_pairing _) Ha Hq) as (_ & H404 & _).
    assert (ObjectId_isValid (Reference.fresh 9) = true) as Hok
      by (vm_compute; reflexivity).
    assert (List.find (has_id (Reference.fresh 9)) (posts Scenario.warm) = None) as Hnone
      by (vm_compute; reflexivity).
    destruct (H404 Hok Hnone) as [Hr _]. exact Hr.
  - destruct (deletePost_checks_then_filters Scenario.quiet
                Scenario.alice_deletes_second Scenario.warm _ _ _
                (surjective_pairing _) Ha Hq) as (_ & _ & H403 & _).
    assert (ObjectId_isValid (post_id Scenario.second) = true) as Hok
      by (vm_compute; reflexivity).
    assert (List.find (has_id (post_id Scenario.second)) (posts Scenario.warm)
            = Some Scenario.second) as Hsome by (vm_compute; reflexivity).
    assert (post_author Scenario.second <> user_id Scenario.alice) as Hbob
      by (vm_compute; discriminate).
    destruct (H403 Hok _ Hsome Hbob) as [Hr _]. exact Hr.
  - destruct (deletePost_checks_then_filters Scenario.quiet
                Scenario.alice_deletes_first Scenario.warm _ _ _
                (surjective_pairing Scenario.after_delete) Ha Hq) as (_ & _ & _ & H200).
    assert (ObjectId_isValid (post_id Scenario.first) = true) as Hok
      by (vm_compute; reflexivity).
    assert (List.find (has_id (post_id Scenario.first)) (posts Scenario.warm)
            = Some Scenario.first) as Hsome by (vm_compute; reflexivity).
    destruct (H200 Hok _ Hsome eq_refl) as (_ & _ & _ & Hcache).
    assert (redis Scenario.warm !! CACHE_KEY
            = Some (Scenario.listing_text, Some 43200%N)) as Hwarm
      by (vm_compute; reflexivity).
    assert (JSON_parse Scenario.listing_text = Some (JArr Scenario.listing)) as Hparse
      by (vm_compute; reflexivity).
    assert (Forall (fun p => p <> JNull) Scenario.listing) as Hobj
      by (repeat constructor; discriminate).
    destruct (Hcache _ _ _ Hwarm Hparse Hobj) as (Hr & _). exact Hr.
  - destruct (deletePost_checks_then_filters Scenario.quiet
                Scenario.alice_deletes_first Scenario.warm _ _ _
                (surjective_pairing Scenario.after_delete) Ha Hq) as (_ & _ & _ & H200).
    assert (ObjectId_isValid (post_id Scenario.first) = true) as Hok
      by (vm_compute; reflexivity).
    assert (List.find (has_id (post_id Scenario.first)) (posts Scenario.warm)
            = Some Scenario.first) as Hsome by (vm_compute; reflexivity).
    destruct (H200 Hok _ Hsome eq_refl) as (_ & Hposts & _). rewrite Hposts.
    vm_compute; reflexivity.
  - destruct (deletePost_checks_then_filters Scenario.quiet
                Scenario.alice_deletes_first Scenario.warm _ _ _
                (surjective_pairing Scenario.after_delete) Ha Hq) as (_ & _ & _ & H200).
    assert (ObjectId_isValid (post_id Scenario.first) = true) as Hok
      by (vm_compute; reflexivity).
    assert (List.find (has_id (post_id Scenario.first)) (posts Scenario.warm)
            = Some Scenario.first) as Hsome by (vm_compute; reflexivity).
    destruct (H200 Hok _ Hsome eq_refl) as (_ & _ & _ & Hcache).
    assert (redis Scenario.warm !! CACHE_KEY
            = Some (Scenario.listing_text, Some 43200%N)) as Hwarm
      by (vm_compute; reflexivity).
    assert (JSON_parse Scenario.listing_text = Some (JArr Scenario.listing)) as Hparse
      by (vm_compute; reflexivity).
    assert (Forall (fun p => p <> JNull) Scenario.listing) as Hobj
      by (repeat constructor; discriminate).
    destruct (Hcache _ _ _ Hwarm Hparse Hobj) as (_ & _ & _ & _ & _ & _ & Hentry).
    eexists. split; cycle 1.
    + apply Hentry. vm_compute; discriminate.
    + vm_compute; reflexivity.
Defined.

(** Claim C4 fails on the code: Alice deletes her post under the upper-case
    spelling of its identifier.  The identifier is valid, the store casts it,
    finds the post and removes it; the cached list is filtered by the
    spelling of the request, which no entry carries, and is rewritten with
    all its entries: it still holds the entry of the deleted post. *)
Lemma deletePost_other_spelling_keeps_cached_entry :
  status (deletePost Scenario.quiet Spelling.alice_deletes_tenth Spelling.warm).1 = 200
  /\ posts (deletePost Scenario.quiet Spelling.alice_deletes_tenth Spelling.warm).2
     = [Scenario.first; Scenario.second]
  /\ exists text,
       redis (deletePost Scenario.quiet Spelling.alice_deletes_tenth Spelling.warm).2
         !! CACHE_KEY = Some (text, None)
       /\ JSON_parse text
          = Some (JArr [Expected.tenth; Expected.second; Expected.first])
       /\ entry_has_id (post_id Spelling.tenth) Expected.tenth = true.
Proof.
  split; [vm_compute; reflexivity|]. split; [vm_compute; reflexivity|].
  eexists. split; [vm_compute; reflexivity|].
  split; vm_compute; reflexivity.
Qed.

(** ** Listing when the Cache Layer fails *)

Section CacheFailure.
Context `{Platform} (env : Env).

(** Claim C5, as the code has it.  A failure of the Cache Layer during a
    listing is not treated as a miss.  When the cache read raises, the
    request ends with the 500 response ["Failed to get all posts"] carrying
    the error and the Content Store is not read; when the read misses and the
    cache write raises, the store has been read and the request ends with the
    same 500 response.  In both cases store and cache are unchanged. *)
Theorem getAllPosts_cache_failure_is_fatal s e r s' :
  getAllPosts env s = (r, s') ->
  let failed := {| status := 500; body := failure_with "Failed to get all posts" e |} in
  (throws env (trace s) (RedisGet CACHE_KEY) = Some e ->
     r = failed /\ trace s' = trace s ++ [RedisGet CACHE_KEY] /\
     redis s' = redis s /\ same_store s s')
  /\
  (let text := JSON_stringify (JArr (populated s <$> merge_sort newer_first (posts s))) in
   throws env (trace s) (RedisGet CACHE_KEY) = None ->
   truthy (fst <$> redis s !! CACHE_KEY) = false ->
   throws env (trace s ++ [RedisGet CACHE_KEY]) PostFindSortedPopulated = None ->
   throws env (trace s ++ [RedisGet CACHE_KEY; PostFindSortedPopulated])
          (RedisSet CACHE_KEY text (Some 43200%N)) = Some e ->
     r = failed /\
     trace s' = trace s ++ [RedisGet CACHE_KEY; PostFindSortedPopulated;
                            RedisSet CACHE_KEY text (Some 43200%N)] /\
     redis s' = redis s /\ same_store s s').
Proof.
  intros Hrun failed. subst failed. split.
  - intros Hget. revert r s' Hrun. run_controller. unfold getAllPosts_body.
    apply ensures_bind. unfold client_get. apply ensures_call; [|congruence].
    intros e' He'. cbn [then_ensures final]. simplify_eq. by repeat split.
  - intros text Hget Hmiss Hfind Hset. subst text.
    revert r s' Hrun. run_controller. unfold getAllPosts_body.
    wp; try oracle_clash; try congruence.
    oracle_agree. repeat split; try done. by rewrite <- !app_assoc.
Qed.

End CacheFailure.

(** On the scenario with the cache unreachable: the listing fails although
    the store holds the two posts. *)
Lemma getAllPosts_cache_failure_witness :
  (getAllPosts Scenario.cache_down Scenario.db).1
    = {| status := 500;
         body := failure_with "Failed to get all posts" (Error "ECONNREFUSED") |}
  /\ trace (getAllPosts Scenario.cache_down Scenario.db).2 = [RedisGet CACHE_KEY].
Proof.
  destruct (getAllPosts_cache_failure_is_fatal Scenario.cache_down Scenario.db
              (Error "ECONNREFUSED") _ _ (surjective_pairing _)) as [Hget _].
  destruct Hget as (Hr & Htrace & _); [reflexivity|].
  split; [exact Hr | exact Htrace].
Defined.

(** Claim C5 as stated fails: with the cache unreachable and the store
    answering, the listing does not fall back to the store; it returns 500
    and never calls the store. *)
Lemma getAllPosts_cache_failure_counterexample :
  throws Scenario.cache_down [] (RedisGet CACHE_KEY) = Some (Error "ECONNREFUSED")
  /\ throws Scenario.cache_down [RedisGet CACHE_KEY] PostFindSortedPopulated = None
  /\ status (getAllPosts Scenario.cache_down Scenario.db).1 = 500
  /\ status (getAllPosts Scenario.cache_down Scenario.db).1 <> 200
  /\ existsb is_store_call (trace (getAllPosts Scenario.cache_down Scenario.db).2) = false.
Proof. vm_compute. repeat split; discriminate. Qed.

(** ** Every mutation invalidates the author's derived keys *)

Section Invalidation.
Context `{Platform} (env : Env).

Ltac invalidated_goal U :=
  intros _; exists U; eexists; split; [eassumption|];
  state_simpl; unfold PROFILE_CACHE_KEY, POSTS_CACHE_KEY;
  split; [rewrite lookup_delete; case_decide; [done|]; by rewrite lookup_delete_eq|];
  split; [by rewrite lookup_delete_eq|];
  split; [rewrite <- !app_assoc; reflexivity | ends_with].

Lemma createPost_invalidates req s r s' :
  createPost env req s = (r, s') -> status r = 201 -> invalidated req s s'.
Proof.
  revert r s'. run_controller. unfold createPost_body.
  destruct (negb (truthy (req_user req))) eqn:Hauth; [wp; not_success|].
  apply not_truthy_false in Hauth as (U & HU & _). rewrite HU.
  cbn [default from_option id].
  wp; try not_success.
  all: invalidated_goal U.
Qed.

Lemma updatePost_invalidates req s r s' :
  updatePost env req s = (r, s') -> status r = 200 -> invalidated req s s'.
Proof.
  revert r s'. run_controller. unfold updatePost_body.
  destruct (negb (truthy (req_user req))) eqn:Hauth; [wp; not_success|].
  apply not_truthy_false in Hauth as (U & HU & _). rewrite HU.
  cbn [default from_option id].
  wp; try not_success.
  all: invalidated_goal U.
Qed.

Lemma deletePost_invalidates req s r s' :
  deletePost env req s = (r, s') -> status r = 200 -> invalidated req s s'.
Proof.
  revert r s'. run_controller. unfold deletePost_body.
  destruct (negb (truthy (req_user req))) eqn:Hauth; [wp; not_success|].
  apply not_truthy_false in Hauth as (U & HU & _). rewrite HU.
  cbn [default from_option id].
  wp; try not_success.
  all: invalidated_goal U.
Qed.

(** Claim C6.  After every successful create, update or delete by user [U]
    the keys ["profile:" ++ U] and ["posts:" ++ U] are absent from the cache,
    and deleting them was the last thing the request did before answering,
    whatever the state of the ["posts:all"] entry; the global list key is
    exactly ["posts:all"]. *)
Theorem mutation_invalidates_author_keys m req s r s' :
  mutate env m req s = (r, s') ->
  status r = success_status m ->
  CACHE_KEY = "posts:all" /\
  exists U calls,
    req_user req = Some U /\
    redis s' !! ("profile:" ++ U)%string = None /\
    redis s' !! ("posts:" ++ U)%string = None /\
    trace s' = trace s ++ calls /\
    [RedisDel ("profile:" ++ U)%string; RedisDel ("posts:" ++ U)%string]
      `suffix_of` calls.
Proof.
  intros Hrun Hst. split; [reflexivity|].
  destruct m; cbn [mutate success_status] in *.
  - exact (createPost_invalidates _ _ _ _ Hrun Hst).
  - exact (updatePost_invalidates _ _ _ _ Hrun Hst).
  - exact (deletePost_invalidates _ _ _ _ Hrun Hst).
Qed.

End Invalidation.

(** On the scenario with Alice's profile and own-posts views cached: after she
    deletes her post both are gone. *)
Lemma mutation_invalidates_witness :
  is_Some (redis Scenario.busy !! ("profile:" ++ user_id Scenario.alice)%string)
  /\ is_Some (redis Scenario.busy !! ("posts:" ++ user_id Scenario.alice)%string)
  /\ redis (deletePost Scenario.quiet Scenario.alice_deletes_first Scenario.busy).2
       !! ("profile:" ++ user_id Scenario.alice)%string = None
  /\ redis (deletePost Scenario.quiet Scenario.alice_deletes_first Scenario.busy).2
       !! ("posts:" ++ user_id Scenario.alice)%string = None.
Proof.
  destruct (mutation_invalidates_author_keys Scenario.quiet Delete
              Scenario.alice_deletes_first Scenario.busy _ _ (surjective_pairing _))
    as (_ & U & calls & HU & Hprofile & Hposts & _).
  - vm_compute; reflexivity.
  - injection HU as <-.
    split; [vm_compute; eexists; reflexivity|].
    split; [vm_compute; eexists; reflexivity|].
    split; [exact Hprofile | exact Hposts].
Defined.

(** ** Ownership is checked before the store is touched *)

Section Ownership.
Context `{Platform} (env : Env).

Ltac no_mutation :=
  split; [by repeat split|];
  first [ exists []; split; [by rewrite app_nil_r | constructor]
        | eexists; split; [rewrite <- ?app_assoc; reflexivity | by repeat constructor] ].

(** Claim C7.  An update or delete request whose caller is not the author of
    the addressed post never changes the store: whatever the collaborators
    answer, no mutating store call is made and the store holds the same
    documents afterwards.  When the caller is authenticated, the request is
    well formed and the lookup of the post answers, the response is 403 and
    that lookup is the only call made: the comparison of the stored author
    with the caller precedes the mutation. *)
Theorem non_author_cannot_mutate m req s post r s' :
  m <> Create ->
  mutate env m req s = (r, s') ->
  List.find (has_id (req_id req)) (posts s) = Some post ->
  req_user req <> Some (post_author post) ->
  (same_store s s' /\
   exists calls, trace s' = trace s ++ calls /\
                 Forall (fun c => is_store_mutation c = false) calls)
  /\
  (forall U, authenticated req U -> well_formed m req ->
             throws env (trace s) (PostFindById (req_id req)) = None ->
     status r = 403 /\ trace s' = trace s ++ [PostFindById (req_id req)]).
Proof.
  intros Hm Hrun Hfind Hother. revert r s' Hrun.
  destruct m; [done| |]; cbn [mutate well_formed]; run_controller.
  - unfold updatePost_body.
    destruct (negb (truthy (req_user req))) eqn:Hauth.
    { wp. split; [no_mutation|]. intros U [HU HUne] _ _.
      rewrite HU, (truthy_nonempty _ HUne) in Hauth. discriminate. }
    apply not_truthy_false in Hauth as (U & HU & HUne). rewrite HU in *.
    cbn [default from_option id].
    assert (negb (post_author post =? U) = true) as Hforbidden.
    { apply negb_true_iff, String.eqb_neq. congruence. }
    wp.
    all: split; [no_mutation|].
    all: intros U' [HU' _] [d Hd] Hok; assert (U' = U) as -> by congruence.
    all: try done; try congruence.
    all: match goal with
         | Hz : zod_parse _ = Raised _ |- _ => rewrite Hd in Hz; discriminate Hz
         end.
  - unfold deletePost_body.
    destruct (negb (truthy (req_user req))) eqn:Hauth.
    { wp. split; [no_mutation|]. intros U [HU HUne] _ _.
      rewrite HU, (truthy_nonempty _ HUne) in Hauth. discriminate. }
    apply not_truthy_false in Hauth as (U & HU & HUne). rewrite HU in *.
    cbn [default from_option id].
    assert (negb (post_author post =? U) = true) as Hforbidden.
    { apply negb_true_iff, String.eqb_neq. congruence. }
    wp.
    all: split; [no_mutation|].
    all: intros U' [HU' _] Hvalid Hok; assert (U' = U) as -> by congruence.
    all: try done; try congruence.
    rewrite Hvalid in *. discriminate.
Qed.

End Ownership.

(** On the scenario: Alice tries to edit and to delete Bob's post. *)
Lemma non_author_cannot_mutate_witness :
  status (updatePost Scenario.quiet Scenario.alice_edits_second Scenario.warm).1 = 403
  /\ posts (updatePost Scenario.quiet Scenario.alice_edits_second Scenario.warm).2
       = posts Scenario.warm
  /\ status (deletePost Scenario.quiet Scenario.alice_deletes_second Scenario.warm).1 = 403
  /\ posts (deletePost Scenario.quiet Scenario.alice_deletes_second Scenario.warm).2
       = posts Scenario.warm.
Proof.
  assert (List.find (has_id (post_id Scenario.second)) (posts Scenario.warm)
          = Some Scenario.second) as Hfind by (vm_compute; reflexivity).
  assert (Some (user_id Scenario.alice) <> Some (post_author Scenario.second)) as Hother
    by (vm_compute; discriminate).
  assert (authenticated Scenario.alice_edits_second (user_id Scenario.alice)) as Ha
    by (split; [reflexivity | vm_compute; discriminate]).
  destruct (non_author_cannot_mutate Scenario.quiet Update
              Scenario.alice_edits_second Scenario.warm Scenario.second _ _
              ltac:(discriminate) (surjective_pairing _) Hfind Hother)
    as [[(Hposts & _) _] Hupdate].
  destruct (non_author_cannot_mutate Scenario.quiet Delete
              Scenario.alice_deletes_second Scenario.warm Scenario.second _ _
              ltac:(discriminate) (surjective_pairing _) Hfind Hother)
    as [[(Hposts' & _) _] Hdelete].
  destruct (Hupdate _ Ha) as [H403 _];
    [eexists; vm_compute; reflexivity | reflexivity |].
  destruct (Hdelete _ Ha) as [H403' _];
    [vm_compute; reflexivity | reflexivity |].
  split; [exact H403|]. split; [exact Hposts|]. split; [exact H403' | exact Hposts'].
Defined.

(** ** Validation *)

Section Validation.
Context `{Platform} (env : Env).

Lemma z_string_invalid key message v issues :
  z_string_min1_trim key message v = Invalid issues -> issues <> [].
Proof.
  unfold z_string_min1_trim.
  destruct v as [[| b | n | raw | items | fields]|]; try (intros [= <-]; discriminate).
  destruct (Nat.leb 1 (String.length raw)); [discriminate|]. by intros [= <-].
Qed.

Lemma z_array_invalid key v issues :
  z_array_string_optional key v = Invalid issues -> issues <> [].
Proof.
  unfold z_array_string_optional.
  destruct v as [[| b | n | raw | items | fields]|]; try (intros [= <-]; discriminate).
  destruct (z_strings key 0%N items) as [ss [|i iss]]; [discriminate|].
  by intros [= <-].
Qed.

Lemma createPostValidation_issues body issues :
  createPostValidation body = Invalid issues -> issues <> [].
Proof.
  unfold createPostValidation.
  destruct body as [[| b | n | raw | items | fields]|]; try (intros [= <-]; discriminate).
  destruct (z_string_min1_trim "content" _ _) as [c|ic] eqn:Hc;
    destruct (z_array_string_optional "tags" _) as [t|it] eqn:Ht;
    destruct (z_string_min1_trim "category" _ _) as [g|ig] eqn:Hg;
    intros [= <-]; cbn [issues_of app].
  all: try apply z_string_invalid in Hc.
  all: try apply z_array_invalid in Ht.
  all: try apply z_string_invalid in Hg.
  all: rewrite ?app_nil_r; try done.
  all: intros Happ; repeat (apply app_eq_nil in Happ as [? Happ]); done.
Qed.

Lemma updatePostValidation_issues body issues :
  updatePostValidation body = Invalid issues -> issues <> [].
Proof.
  unfold updatePostValidation.
  destruct body as [[| b | n | raw | items | fields]|]; try (intros [= <-]; discriminate).
  destruct (z_string_min1_trim "content" _ _) as [c|ic] eqn:Hc; [discriminate|].
  intros [= <-]. by apply z_string_invalid in Hc.
Qed.

(** Claim C8, what the code does.  For an authenticated caller whose body
    fails validation, [createPost] answers 400 with the messages of the
    issues and [updatePost] answers 500 ["Failed to update post"]: its catch
    block has no branch for [ZodError].  Neither touches store or cache. *)
Theorem validation_failure_responses req s U :
  authenticated req U ->
  (forall issues,
     createPostValidation (req_body req) = Invalid issues ->
     issues <> [] /\
     createPost env req s =
       ({| status := 400;
           body := JObj [ ("success", JBool false);
                          ("message",
                           JArr ((fun e => JStr (issue_message e)) <$> issues)) ] |},
        s))
  /\
  (forall issues,
     updatePostValidation (req_body req) = Invalid issues ->
     issues <> [] /\
     updatePost env req s =
       ({| status := 500;
           body := failure_with "Failed to update post" (ZodError issues) |}, s)).
Proof.
  intros [HU HUne]. pose proof (truthy_nonempty _ HUne) as Hauth.
  split; intros issues Hinvalid.
  - split; [by eapply createPostValidation_issues|].
    unfold createPost, controller, createPost_body, bind, lift.
    by rewrite HU, Hauth, Hinvalid.
  - split; [by eapply updatePostValidation_issues|].
    unfold updatePost, controller, updatePost_body, bind, lift.
    by rewrite HU, Hauth, Hinvalid.
Qed.

(** What [createPostValidation] accepts. *)
Lemma createPostValidation_Valid body d :
  createPostValidation body = Valid d ->
  exists fields raw,
    body = Some (JObj fields) /\ assoc "content" fields = Some (JStr raw) /\
    1 <= String.length raw /\ cp_content d = trim raw.
Proof.
  unfold createPostValidation.
  destruct body as [[| b | n | raw | items | fields]|]; try discriminate.
  unfold z_string_min1_trim at 1.
  destruct (assoc "content" fields) as [[| b | n | raw | items | fs]|] eqn:Hc; cbn;
    try (repeat case_match; discriminate).
  destruct (Nat.leb 1 (String.length raw)) eqn:Hlen;
    [|repeat case_match; discriminate].
  repeat case_match; try discriminate. intros [= <-].
  simplify_eq. exists fields, raw. repeat split; try done. lia.
Qed.

(** Claim C9, amended.  A create request that is accepted and carried out
    submitted a content of at least one character before trimming, and the
    content of the stored post is the trimmed input. *)
Theorem createPost_stores_trimmed_content req s r s' :
  createPost env req s = (r, s') ->
  status r = 201 ->
  exists fields raw d newPost,
    req_body req = Some (JObj fields) /\
    assoc "content" fields = Some (JStr raw) /\
    createPostValidation (req_body req) = Valid d /\
    1 <= String.length raw /\
    cp_content d = trim raw /\
    posts s' = posts s ++ [newPost] /\
    post_content newPost = trim raw.
Proof.
  revert r s'. run_controller. unfold createPost_body.
  destruct (negb (truthy (req_user req))) eqn:Hauth; [wp; not_success|].
  destruct (createPostValidation (req_body req)) as [d|issues] eqn:Hd;
    cbn [zod_parse]; [|wp; not_success].
  destruct (createPostValidation_Valid _ _ Hd) as (fields & raw & Hbody & Hraw & Hlen & Hc).
  wp; try not_success.
  all: intros _; exists fields, raw, d; eexists.
  all: rewrite Hbody in *.
  all: by repeat split.
Qed.

End Validation.

(** On the scenario: Alice creates and updates with a body that has no
    content; creation answers 400, update answers 500. *)
Lemma validation_failure_witness :
  status (createPost Scenario.quiet
            (Scenario.as_alice "" Scenario.empty_body None) Scenario.warm).1 = 400
  /\ status (updatePost Scenario.quiet Scenario.alice_edits_first_badly Scenario.warm).1
     = 500.
Proof.
  assert (authenticated Scenario.alice_edits_first_badly (user_id Scenario.alice)) as Ha
    by (split; [reflexivity | vm_compute; discriminate]).
  destruct (validation_failure_responses Scenario.quiet
              (Scenario.as_alice "" Scenario.empty_body None) Scenario.warm _ Ha)
    as [Hcreate _].
  destruct (validation_failure_responses Scenario.quiet
              Scenario.alice_edits_first_badly Scenario.warm _ Ha)
    as [_ Hupdate].
  destruct (Hcreate _ eq_refl) as [_ Hc]. destruct (Hupdate _ eq_refl) as [_ Hu].
  rewrite Hc, Hu. split; reflexivity.
Defined.

(** On the scenario: Alice posts [" hello "]; the stored content is
    ["hello"]. *)
Lemma createPost_stores_trimmed_witness :
  exists newPost,
    posts Scenario.after_hello.2 = posts Scenario.warm ++ [newPost] /\
    post_content newPost = "hello".
Proof.
  destruct (createPost_stores_trimmed_content Scenario.quiet
              Scenario.alice_posts_hello Scenario.warm _ _
              (surjective_pairing Scenario.after_hello))
    as (fields & raw & d & newPost & Hbody & Hraw & _ & _ & _ & Hposts & Hcontent).
  - vm_compute; reflexivity.
  - injection Hbody as <-. vm_compute in Hraw. injection Hraw as <-.
    exists newPost. split; [exact Hposts|]. rewrite Hcontent. vm_compute; reflexivity.
Defined.

(** Claim C9 as stated fails: a content of one space passes
    [createPostValidation] and trims to the empty string. *)
Lemma blank_content_passes_validation :
  createPostValidation Scenario.blank
    = Valid {| cp_content := ""; cp_tags := None; cp_category := "tech" |}
  /\ trim " " = "".
Proof. split; vm_compute; reflexivity. Qed.

(** ** Creation is not atomic with category creation *)

Section UploadFailure.
Context `{Platform} (env : Env).

(** Claim C10.  A create request that names a category absent from the
    store and carries an image whose upload fails answers 500 with the
    upstream error and stores no post, but the category created by the
    preceding get-or-create step stays in the store. *)
Theorem createPost_upload_failure_keeps_category req s U d path e r s' :
  createPost env req s = (r, s') ->
  authenticated req U ->
  createPostValidation (req_body req) = Valid d ->
  let name := cp_category d in
  List.find (fun c => String.eqb (category_name c) name) (categories s) = None ->
  req_file req = Some path ->
  throws env (trace s) (CategoryFindOne name) = None ->
  throws env (trace s ++ [CategoryFindOne name]) (CategorySave name) = None ->
  throws env (trace s ++ [CategoryFindOne name; CategorySave name])
         (CloudinaryUpload path) = Some e ->
  r = {| status := 500;
         body := failure_with "Image upload to Cloudinary failed" e |} /\
  posts s' = posts s /\
  categories s' = categories s ++
    [ {| category_id := ObjectId_fresh (issued s); category_name := name |} ] /\
  trace s' = trace s ++ [CategoryFindOne name; CategorySave name; CloudinaryUpload path].
Proof.
  intros Hrun [HU HUne] Hd name Habsent Hfile Hfind Hsave Hupload. subst name.
  pose proof (truthy_nonempty _ HUne) as Hauth.
  revert r s' Hrun. run_controller. unfold createPost_body.
  rewrite HU, Hauth, Hd. cbn [negb default from_option id zod_parse].
  wp; try oracle_clash.
  oracle_agree. repeat split; try done. by rewrite <- !app_assoc.
Qed.

End UploadFailure.

(** On the scenario with the uploader failing: Alice posts to the new
    category ["news"] with an image. *)
Lemma createPost_upload_failure_witness :
  status (createPost Scenario.upload_down Scenario.alice_posts_news Scenario.db).1 = 500
  /\ posts (createPost Scenario.upload_down Scenario.alice_posts_news Scenario.db).2
       = posts Scenario.db
  /\ category_name <$>
       categories (createPost Scenario.upload_down Scenario.alice_posts_news Scenario.db).2
     = ["tech"; "news"].
Proof.
  destruct (createPost_upload_failure_keeps_category Scenario.upload_down
              Scenario.alice_posts_news Scenario.db (user_id Scenario.alice)
              {| cp_content := "launch"; cp_tags := None; cp_category := "news" |}
              "uploads/launch.png" (Error "Request Timeout") _ _
              (surjective_pairing _))
    as (Hr & Hposts & Hcats & _).
  - split; [reflexivity | vm_compute; discriminate].
  - vm_compute; reflexivity.
  - vm_compute; reflexivity.
  - reflexivity.
  - reflexivity.
  - reflexivity.
  - reflexivity.
  - rewrite Hr, Hposts, Hcats. split; [reflexivity|]. split; reflexivity.
Defined.

(** * Further properties of the post service *)

(** ** Authentication comes first *)

Section Authentication.
Context `{Platform} (env : Env).

(** Property X1.
    A create, update or delete request without a caller identity (none, or
    the empty string) is answered 401 before the body is validated, the
    identifier is checked or any collaborator is called: the state, trace
    included, is the one before. *)
Theorem unauthenticated_mutation_is_rejected m req s :
  truthy (req_user req) = false ->
  mutate env m req s = (not_authenticated, s).
Proof.
  intros Hanon.
  destruct m; cbn [mutate];
    unfold createPost, createPost_body, updatePost, updatePost_body,
      deletePost, deletePost_body, controller;
    by rewrite Hanon.
Qed.

End Authentication.

(** On the scenario: an anonymous caller sends a body without content, and a
    caller with an empty identity deletes with a malformed identifier; both
    get 401, not 400. *)
Lemma unauthenticated_mutation_witness :
  status (updatePost Scenario.quiet
            (Scenario.request None (post_id Scenario.first) Scenario.empty_body None)
            Scenario.warm).1 = 401
  /\ (deletePost Scenario.quiet
        (Scenario.request (Some EmptyString) "not-an-id" None None) Scenario.warm).2
     = Scenario.warm.
Proof.
  pose proof (unauthenticated_mutation_is_rejected Scenario.quiet Update
                (Scenario.request None (post_id Scenario.first) Scenario.empty_body None)
                Scenario.warm eq_refl) as Hupdate.
  pose proof (unauthenticated_mutation_is_rejected Scenario.quiet Delete
                (Scenario.request (Some EmptyString) "not-an-id" None None)
                Scenario.warm eq_refl) as Hdelete.
  cbn [mutate] in Hupdate, Hdelete. rewrite Hupdate, Hdelete.
  split; reflexivity.
Defined.

(** ** What a mutation does to the cache *)

Section CacheFootprint.
Context `{Platform} (env : Env).

Ltac lookups :=
  state_simpl;
  repeat first [ rewrite lookup_delete_ne by congruence
               | rewrite lookup_insert_ne by congruence ];
  try done.

(** Property X2.
    No create, update or delete ever populates ["posts:all"]: when the list
    is not cached before the request it is not cached after it, whatever the
    request, the collaborators' answers and the outcome. *)
Theorem mutation_never_populates_list_cache m req s r s' :
  mutate env m req s = (r, s') ->
  redis s !! CACHE_KEY = None ->
  redis s' !! CACHE_KEY = None.
Proof.
  intros Hrun Hnone. revert r s' Hrun.
  destruct m; cbn [mutate]; run_controller;
    unfold createPost_body, updatePost_body, deletePost_body.
  all: wp; try discriminate.
  all: rewrite ?lookup_delete; repeat case_decide; done.
Qed.

(** Property X3.
    A mutation by user [U] reads and writes no cache key other than
    ["posts:all"], ["profile:" ++ U] and ["posts:" ++ U]: every other entry,
    the derived views of other users included, is as before. *)
Theorem mutation_keeps_other_cache_entries m req s r s' key :
  mutate env m req s = (r, s') ->
  key <> CACHE_KEY ->
  (forall U, req_user req = Some U ->
             key <> PROFILE_CACHE_KEY U /\ key <> POSTS_CACHE_KEY U) ->
  redis s' !! key = redis s !! key.
Proof.
  intros Hrun Hlist Hown. revert r s' Hrun.
  destruct m; cbn [mutate]; run_controller;
    unfold createPost_body, updatePost_body, deletePost_body.
  all: destruct (negb (truthy (req_user req))) eqn:Hauth; [by wp|].
  all: apply not_truthy_false in Hauth as (U & HU & _).
  all: destruct (Hown U HU) as [Hprofile Hposts].
  all: rewrite HU; cbn [default from_option id].
  all: wp; lookups.
Qed.

End CacheFootprint.

(** ** What a mutation does to the store *)

Section StoreFootprint.
Context `{Platform} (env : Env).

Lemma update_first_same_but_content id content ps :
  Forall2 (same_but_content id) ps (update_first id content ps).
Proof.
  induction ps as [|p ps IH]; simpl; [constructor|].
  destruct (has_id id p) eqn:Hp.
  - constructor; [right; eauto|]. apply Forall2_same_length_lookup_2; [done|].
    intros i x y Hx Hy. left. congruence.
  - constructor; [by left | done].
Qed.

Lemma same_but_content_refl id ps : Forall2 (same_but_content id) ps ps.
Proof. induction ps; constructor; [by left | done]. Qed.

(** Property X4.
    An update request rewrites at most the content of the post it
    addresses: whatever the request and its outcome, the store holds the
    same posts in the same order, each equal to what it was or, for the
    addressed post, equal up to its content; author, image, tags, category,
    creation time and identifier are never reassigned, and categories and
    users are untouched. *)
Theorem updatePost_changes_content_only req s :
  let s' := (updatePost env req s).2 in
  Forall2 (same_but_content (req_id req)) (posts s) (posts s')
  /\ categories s' = categories s /\ users s' = users s.
Proof.
  apply (controller_ensures _ _ _
           (fun _ s' => Forall2 (same_but_content (req_id req)) (posts s) (posts s')
                        /\ categories s' = categories s /\ users s' = users s)).
  unfold updatePost_body. wp.
  all: split; [|done].
  all: first [ apply same_but_content_refl | apply update_first_same_but_content ].
Qed.

Lemma find_category_None name cs :
  List.find (fun c => String.eqb (category_name c) name) cs = None ->
  name ∉ category_name <$> cs.
Proof.
  intros Hf Hin. apply list_elem_of_fmap in Hin as (c & -> & Hc).
  apply list_elem_of_In in Hc.
  pose proof (List.find_none _ _ Hf c Hc) as Hne. cbn in Hne.
  by rewrite String.eqb_refl in Hne.
Qed.

Lemma find_category_Some name cs c :
  List.find (fun c => String.eqb (category_name c) name) cs = Some c ->
  c ∈ cs /\ category_name c = name.
Proof.
  intros Hf. apply List.find_some in Hf as [Hin Hname].
  split; [by apply list_elem_of_In | by apply String.eqb_eq].
Qed.

(** Property X5.
    Get-or-create of the category: a create request adds at most one
    category, and only under a name the store does not hold yet, so category
    names stay unique; this holds for every outcome of the request.  When the
    request succeeds, the store holds a category with the trimmed name that
    was submitted. *)
Theorem createPost_gets_or_creates_category req s r s' :
  createPost env req s = (r, s') ->
  NoDup (category_name <$> categories s) ->
  (categories s' = categories s \/
   exists c, categories s' = categories s ++ [c] /\
             category_name c ∉ category_name <$> categories s)
  /\ NoDup (category_name <$> categories s')
  /\ (status r = 201 ->
      exists d, createPostValidation (req_body req) = Valid d /\
                cp_category d ∈ category_name <$> categories s').
Proof.
  intros Hrun Hnodup. revert r s' Hrun. run_controller. unfold createPost_body.
  destruct (createPostValidation (req_body req)) as [d|issues] eqn:Hd; cbn [zod_parse].
  2: { wp; (split; [by left|]); (split; [done|]); not_success. }
  wp; clear_throws.
  all: repeat match goal with
              | Hf : List.find _ (categories _) = None |- _ =>
                  apply find_category_None in Hf
              | Hf : List.find _ (categories _) = Some _ |- _ =>
                  apply find_category_Some in Hf as [? ?]
              end.
  all: split; [first [ by left | right; eexists; by split ]|].
  all: split;
    [ first [ done
            | rewrite fmap_app; apply NoDup_app; cbn;
              split; [done|]; split; [|apply NoDup_singleton];
              intros x Hx ->%list_elem_of_singleton; contradiction ] |].
  all: try not_success.
  all: intros _; exists d; split; [done|].
  all: first [ match goal with
               | Hn : category_name ?c = _ |- _ =>
                   rewrite <- Hn; by apply list_elem_of_fmap_2
               end
             | rewrite fmap_app; apply elem_of_app; right; by left ].
Qed.

Lemma elem_of_update_first id content ps p :
  p ∈ update_first id content ps -> exists q, q ∈ ps /\ post_category p = post_category q.
Proof.
  induction ps as [|q ps IH]; simpl; [by intros ?%elem_of_nil|].
  destruct (has_id id q).
  - intros [->|Hp]%elem_of_cons; [exists q; split; [by left | done]|].
    exists p. split; [by right | done].
  - intros [->|Hp]%elem_of_cons; [exists q; split; [by left | done]|].
    destruct (IH Hp) as (q' & Hq' & Heq). exists q'. split; [by right | done].
Qed.

Lemma elem_of_delete_first id ps p : p ∈ delete_first id ps -> p ∈ ps.
Proof.
  induction ps as [|q ps IH]; simpl; [done|].
  destruct (has_id id q); [by right|].
  intros [->|Hp]%elem_of_cons; [by left | right; auto].
Qed.

Lemma resolved_weaken (s s' : State) :
  categories_resolved s ->
  (forall c, c ∈ categories s -> c ∈ categories s') ->
  (forall p, p ∈ posts s' -> exists q, q ∈ posts s /\ post_category p = post_category q) ->
  categories_resolved s'.
Proof.
  intros Hres Hcs Hps p Hp. destruct (Hps p Hp) as (q & Hq & ->).
  destruct (Hres q Hq) as (c & Hc & Hid). exists c. auto.
Qed.

Lemma resolved_new_post (s s' : State) p c :
  categories_resolved s ->
  (forall c, c ∈ categories s -> c ∈ categories s') ->
  posts s' = posts s ++ [p] ->
  c ∈ categories s' -> post_category p = category_id c ->
  categories_resolved s'.
Proof.
  intros Hres Hcs Hps Hc Hid q. rewrite Hps.
  intros [Hq | ->%list_elem_of_singleton]%elem_of_app.
  - destruct (Hres q Hq) as (c' & Hc' & Hid'). exists c'. auto.
  - exists c. auto.
Qed.

(** Property X6.
    Referential integrity: if every post refers to a category of the store
    before a create, update or delete request, so it does afterwards,
    whatever the request and its outcome. *)
Theorem mutation_keeps_categories_resolved m req s r s' :
  mutate env m req s = (r, s') ->
  categories_resolved s ->
  categories_resolved s'.
Proof.
  intros Hrun Hres. revert r s' Hrun.
  destruct m; cbn [mutate]; run_controller;
    unfold createPost_body, updatePost_body, deletePost_body.
  all: wp; clear_throws; try done.
  all: repeat match goal with
              | Hf : List.find _ (categories _) = Some _ |- _ =>
                  apply find_category_Some in Hf as [? ?]
              end.
  all: first
    [ eapply resolved_new_post;
        [ exact Hres
        | state_simpl; intros c' Hc'; first [ exact Hc' | apply elem_of_app; by left ]
        | state_simpl; reflexivity
        | state_simpl; first [ eassumption | apply elem_of_app; right; by left ]
        | reflexivity ]
    | eapply resolved_weaken;
        [ exact Hres
        | state_simpl; intros c' Hc'; first [ exact Hc' | apply elem_of_app; by left ]
        | state_simpl; intros x Hx;
          first [ by exists x
                | by apply elem_of_update_first in Hx
                | apply elem_of_delete_first in Hx; by exists x ] ] ].
Qed.

End StoreFootprint.

(** ** Identifiers stay unique *)

Section Identifiers.
Context `{Platform} (env : Env).

Lemma ids_update_first id content ps :
  post_id <$> update_first id content ps = post_id <$> ps.
Proof.
  induction ps as [|p ps IH]; cbn; [done|].
  destruct (has_id id p); cbn; [done | by rewrite IH].
Qed.

Lemma ids_delete_first id ps :
  (post_id <$> delete_first id ps) `sublist_of` (post_id <$> ps).
Proof.
  induction ps as [|p ps IH]; cbn; [done|].
  destruct (has_id id p); cbn; by constructor.
Qed.

Lemma ids_new_post ps p :
  NoDup (post_id <$> ps) ->
  Forall (fun q => post_id q <> post_id p) ps ->
  NoDup (post_id <$> ps ++ [p]).
Proof.
  intros Hps Hnew. rewrite fmap_app. apply NoDup_app. split; [done|].
  split; [|apply NoDup_singleton].
  intros x Hx Hp. apply list_elem_of_singleton in Hp as ->.
  apply list_elem_of_fmap in Hx as (q & Heq & Hq).
  rewrite Forall_forall in Hnew. by apply (Hnew q Hq).
Qed.

(** Property X7.
    If no two posts share an identifier, no create, update or delete makes
    two posts share one, whatever its outcome; for a creation the
    identifiers the store is about to assign must not be in use. *)
Theorem mutation_keeps_ids_unique m req s r s' :
  mutate env m req s = (r, s') ->
  unique_ids s ->
  (m = Create -> fresh_ids s) ->
  unique_ids s'.
Proof.
  unfold unique_ids. intros Hrun Huniq Hfresh. revert r s' Hrun.
  destruct m; cbn [mutate]; run_controller;
    unfold createPost_body, updatePost_body, deletePost_body.
  - destruct (Hfresh eq_refl) as [Hnow Hnext]. unfold unused in Hnow, Hnext.
    wp; try done; state_simpl; by apply ids_new_post.
  - wp; try done; state_simpl; by rewrite ids_update_first.
  - wp; try done; state_simpl; eapply sublist_NoDup; eauto using ids_delete_first.
Qed.

End Identifiers.

(** ** Edges of the cache patches *)

Section CachePatchEdges.
Context `{Platform} (env : Env).

(** Property X8.
    When an update succeeds while the cached list holds no entry for the
    updated post, the ["posts:all"] entry is not rewritten: no cache write is
    made and the entry keeps its text and its expiry, so the cached list does
    not show the post. *)
Theorem updatePost_skips_uncached_post req s r s' v ttl cached :
  updatePost env req s = (r, s') ->
  status r = 200 ->
  redis s !! CACHE_KEY = Some (v, ttl) ->
  JSON_parse v = Some (JArr cached) ->
  Forall (fun p => entry_has_id (req_id req) p = false) cached ->
  exists U calls,
    req_user req = Some U /\
    trace s' = trace s ++ calls /\
    Forall (fun c => is_redis_set c = false) calls /\
    redis s' = delete (POSTS_CACHE_KEY U) (delete (PROFILE_CACHE_KEY U) (redis s)) /\
    (U <> "all" -> redis s' !! CACHE_KEY = Some (v, ttl)).
Proof.
  intros Hrun Hst Hv Hcached Habsent.
  pose proof (parsed_truthy _ _ Hcached) as Htruthy.
  pose proof (parse_Done _ _ Hcached) as Hparse.
  revert r s' Hrun Hst. run_controller. unfold updatePost_body.
  destruct (negb (truthy (req_user req))) eqn:Hauth; [wp; not_success|].
  apply not_truthy_false in Hauth as (U & HU & _). rewrite HU.
  cbn [default from_option id].
  wp; try not_success.
  all: intros _; clear_throws; subst.
  - match goal with
    | Hf : findIndex _ _ _ = Done (Some _) |- _ =>
        apply findIndex_Some in Hf as (j & old & _ & Hj & Hold & _)
    end.
    rewrite Forall_forall in Habsent.
    rewrite (Habsent old) in Hold by (by eapply list_elem_of_lookup_2).
    discriminate.
  - exists U. eexists. split; [done|].
    split; [rewrite <- !app_assoc; reflexivity|].
    split; [by repeat constructor|]. split; [done|]. intros HUall.
    rewrite lookup_delete_ne by (by apply posts_key_not_list_key).
    by rewrite lookup_delete_ne by apply profile_key_not_list_key.
Qed.

(** Property X9.
    A cached text that does not deserialize makes update and delete fail
    after the store has been changed: the caller is answered 500, the post
    is nevertheless updated or removed, and the author's derived keys are
    not invalidated (the cache is left as it was). *)
Theorem corrupt_cache_fails_after_mutation m req s U post r s' v ttl :
  m <> Create ->
  mutate env m req s = (r, s') ->
  authenticated req U ->
  well_formed m req ->
  reliable env ->
  List.find (has_id (req_id req)) (posts s) = Some post ->
  post_author post = U ->
  redis s !! CACHE_KEY = Some (v, ttl) ->
  v <> "" ->
  JSON_parse v = None ->
  status r = 500 /\
  redis s' = redis s /\
  match m with
  | Create => True
  | Update =>
      exists d, updatePostValidation (req_body req) = Valid d /\
                posts s' = update_first (req_id req) (up_content d) (posts s)
  | Delete => posts s' = delete_first (req_id req) (posts s)
  end.
Proof.
  intros Hm Hrun [HU HUne] Hwf Hrel Hfind Hown Hv Hne Hbad.
  pose proof (truthy_nonempty _ HUne) as Hauth.
  pose proof (truthy_nonempty _ Hne) as Htruthy.
  assert (negb (post_author post =? U) = false) as Hallowed
    by (by apply negb_false_iff, String.eqb_eq).
  assert (parse v = Raised (SyntaxError v)) as Hparse
    by (unfold parse; by rewrite Hbad).
  revert r s' Hrun.
  destruct m; [done| |]; cbn [mutate well_formed] in *; run_controller.
  - destruct Hwf as [d Hd]. unfold updatePost_body.
    rewrite HU, Hauth, Hd. cbn [negb default from_option id zod_parse].
    wp; try unreliable Hrel. repeat split; eauto.
  - unfold deletePost_body.
    rewrite HU, Hauth, Hwf. cbn [negb default from_option id].
    wp; try unreliable Hrel. by repeat split.
Qed.

(** Property X10.
    When the cache cannot be read during a creation, the post (and a
    category created for it) is already stored: the caller is answered 500
    while the store holds the new post. *)
Theorem createPost_cache_outage_keeps_post req s r s' U d c message :
  createPost env req s = (r, s') ->
  authenticated req U ->
  createPostValidation (req_body req) = Valid d ->
  List.find (fun c => String.eqb (category_name c) (cp_category d)) (categories s)
    = Some c ->
  req_file req = None ->
  (forall h call, is_store_call call = true -> throws env h call = None) ->
  (forall h, throws env h (RedisGet CACHE_KEY) = Some (Error message)) ->
  r = {| status := 500;
         body := failure_with "Failed to create post" (Error message) |} /\
  posts s' = posts s ++
    [ {| post_id := ObjectId_fresh (issued s); post_content := cp_content d;
         post_author := U; post_image := None; post_tags := default [] (cp_tags d);
         post_category := category_id c; post_createdAt := now env |} ] /\
  redis s' = redis s.
Proof.
  intros Hrun [HU HUne] Hd Hc Hfile Hstore Hget.
  pose proof (truthy_nonempty _ HUne) as Hauth.
  revert r s' Hrun. run_controller. unfold createPost_body.
  rewrite HU, Hauth, Hd, Hfile. cbn [negb default from_option id zod_parse].
  wp.
  all: try match goal with
           | He : throws _ _ (RedisGet CACHE_KEY) = None |- _ =>
               rewrite Hget in He; discriminate He
           | He : throws _ _ ?call = Some _ |- _ =>
               rewrite Hstore in He by reflexivity; discriminate He
           end.
  match goal with
  | He : throws _ _ (RedisGet CACHE_KEY) = Some _ |- _ =>
      rewrite Hget in He; injection He as <-
  end.
  by repeat split.
Qed.

End CachePatchEdges.

(** ** Deletion and lookup *)

Section DeleteThenLookup.
Context `{Platform} (env : Env).

Lemma find_delete_first_unique id ps :
  NoDup (post_id <$> ps) -> List.find (has_id id) (delete_first id ps) = None.
Proof.
  induction ps as [|p ps IH]; simpl; [done|].
  intros [Hp Hps]%NoDup_cons.
  destruct (has_id id p) eqn:Hid; simpl; [|rewrite Hid; auto].
  destruct (List.find (has_id id) ps) as [q|] eqn:Hq; [|done].
  apply List.find_some in Hq as [Hin Hq]. exfalso. apply Hp.
  rewrite <- (has_id_same _ _ _ Hid Hq). by apply list_elem_of_fmap_2, list_elem_of_In.
Qed.

(** Property X11.
    After a successful deletion, with identifiers unique in the store, the
    store holds one post less and none under the deleted identifier: looking
    the post up afterwards yields 404, and so does deleting it again. *)
Theorem deleted_post_is_gone req s r s' :
  deletePost env req s = (r, s') ->
  status r = 200 ->
  unique_ids s ->
  S (length (posts s')) = length (posts s)
  /\ List.find (has_id (req_id req)) (posts s') = None
  /\ (forall env' req',
        req_id req' = req_id req ->
        throws env' (trace s') (PostFindById (req_id req)) = None ->
        status (getPostsById env' req' s').1 = 404
        /\ (truthy (req_user req') = true ->
            status (deletePost env' req' s').1 = 404)).
Proof.
  intros Hrun Hst Huniq.
  assert (ObjectId_isValid (req_id req) = true /\
          posts s' = delete_first (req_id req) (posts s) /\
          exists post, List.find (has_id (req_id req)) (posts s) = Some post)
    as (Hvalid & Hposts & post & Hfind).
  { revert r s' Hrun Hst. run_controller. unfold deletePost_body.
    wp; try not_success.
    all: intros _; split; [by destruct (ObjectId_isValid (req_id req))|].
    all: split; [done|]; eauto. }
  rewrite Hposts.
  split; [by eapply length_delete_first|].
  split; [by apply find_delete_first_unique|].
  intros env' req' Hid Hlookup.
  assert (List.find (has_id (req_id req)) (posts s') = None) as Hgone
    by (rewrite Hposts; by apply find_delete_first_unique).
  split.
  - unfold getPostsById, controller, getPostsById_body, bind, postModel_findById, call.
    rewrite Hid, Hlookup. state_simpl. by rewrite Hgone.
  - intros Hauth.
    unfold deletePost, controller, deletePost_body, bind, postModel_findById, call.
    rewrite Hauth, Hid, Hvalid. cbn [negb]. rewrite Hlookup. state_simpl.
    by rewrite Hgone.
Qed.

End DeleteThenLookup.

(** ** Reads *)

Section Reads.
Context `{Platform} (env : Env).

(** Property X12.
    [getPostsById] bypasses the cache and changes nothing: whatever the
    request and the collaborators' answers, cache and store are as before
    and every call made is a read of the Content Store. *)
Theorem getPostsById_only_reads_the_store req s :
  let s' := (getPostsById env req s).2 in
  redis s' = redis s /\ same_store s s' /\ issued s' = issued s /\
  exists calls, trace s' = trace s ++ calls /\
    Forall (fun c => is_store_call c = true /\ is_store_mutation c = false) calls.
Proof.
  apply (controller_ensures _ _ _
    (fun _ s' => redis s' = redis s /\ same_store s s' /\ issued s' = issued s /\
       exists calls, trace s' = trace s ++ calls /\
         Forall (fun c => is_store_call c = true /\ is_store_mutation c = false) calls)).
  unfold getPostsById_body, postModel_findById_author. wp.
  all: do 3 (split; [done|]).
  all: eexists; split; [rewrite <- ?app_assoc; reflexivity | by repeat constructor].
Qed.

(** Property X13.
    With the store answering, [getPostsById] yields 404 exactly when no post
    carries the identifier; otherwise it yields the post with its author
    resolved to the identifier and the full name only, and its category left
    as the stored reference. *)
Theorem getPostsById_found_or_404 req s r s' :
  getPostsById env req s = (r, s') ->
  reliable env ->
  match List.find (has_id (req_id req)) (posts s) with
  | None => r = {| status := 404; body := failure "Post not found" |}
  | Some p =>
      status r = 200 /\
      assoc "data" (match body r with JObj fields => fields | _ => [] end)
        = Some (JObj [ ("posts", post_toJSON s ["fullname"] false p) ]) /\
      (forall u, List.find (fun u => String.eqb (user_id u) (post_author p)) (users s)
                 = Some u ->
         select_author s ["fullname"] (post_author p)
         = JObj [ ("_id", JStr (user_id u)); ("fullname", JStr (user_fullname u)) ])
  end.
Proof.
  intros Hrun Hrel. revert r s' Hrun. run_controller.
  unfold getPostsById_body, postModel_findById_author.
  destruct (List.find (has_id (req_id req)) (posts s)) as [p|] eqn:Hfind.
  - wp; try unreliable Hrel. split; [done|]. split; [done|].
    intros u Hu. unfold select_author. by rewrite Hu.
  - wp; try unreliable Hrel. done.
Qed.

(** Property X14.
    A listing never changes the store and writes no cache key but
    ["posts:all"], whatever the collaborators answer. *)
Theorem getAllPosts_touches_only_list_cache s key :
  key <> CACHE_KEY ->
  let s' := (getAllPosts env s).2 in
  same_store s s' /\ issued s' = issued s /\ redis s' !! key = redis s !! key.
Proof.
  intros Hkey.
  apply (controller_ensures _ _ _
    (fun _ s' => same_store s s' /\ issued s' = issued s /\
                 redis s' !! key = redis s !! key)).
  unfold getAllPosts_body. wp.
  all: do 2 (split; [done|]).
  all: try done.
  by rewrite lookup_insert_ne.
Qed.

End Reads.

(** ** Validated text is trimmed *)

Section Trimmed.
Context `{Platform}.

Lemma trim_start_no_leading s : starts_with_space (trim_start s) = false.
Proof.
  induction s as [|a s IH]; simpl; [done|].
  destruct (is_js_space a) eqn:Ha; [done|]. simpl. by rewrite Ha.
Qed.

Lemma trim_end_no_trailing s : ends_with_space (trim_end s) = false.
Proof.
  induction s as [|a s IH]; simpl; [done|].
  destruct (trim_end s) as [|b t] eqn:Ht.
  - destruct (is_js_space a) eqn:Ha; simpl; [done | by rewrite Ha].
  - exact IH.
Qed.

Lemma trim_end_keeps_start s :
  starts_with_space s = false -> starts_with_space (trim_end s) = false.
Proof.
  destruct s as [|a s]; simpl; [done|]. intros Ha.
  destruct (trim_end s); [by rewrite Ha|done].
Qed.

Lemma trim_start_fixed s : starts_with_space s = false -> trim_start s = s.
Proof. destruct s as [|a s]; simpl; [done|]. by intros ->. Qed.

Lemma trim_end_fixed s : ends_with_space s = false -> trim_end s = s.
Proof.
  induction s as [|a s IH]; [done|]. cbn [ends_with_space trim_end].
  destruct s as [|b t].
  - intros Ha. simpl. by rewrite Ha.
  - intros Hs. rewrite (IH Hs). done.
Qed.

Lemma trim_is_trimmed s :
  starts_with_space (trim s) = false /\ ends_with_space (trim s) = false
  /\ trim (trim s) = trim s.
Proof.
  assert (starts_with_space (trim s) = false) as Hstart
    by apply trim_end_keeps_start, trim_start_no_leading.
  assert (ends_with_space (trim s) = false) as Hend by apply trim_end_no_trailing.
  do 2 (split; [done|]).
  unfold trim at 1. by rewrite (trim_start_fixed _ Hstart), (trim_end_fixed _ Hend).
Qed.

Lemma z_string_trimmed key message v text :
  z_string_min1_trim key message v = Valid text ->
  starts_with_space text = false /\ ends_with_space text = false /\ trim text = text.
Proof.
  unfold z_string_min1_trim.
  destruct v as [[| b | n | raw | items | fields]|]; try discriminate.
  destruct (Nat.leb 1 (String.length raw)); [|discriminate].
  intros [= <-]. apply trim_is_trimmed.
Qed.

(** Property X15.
    The texts that the schemas let through are trimmed: the content and the
    category of an accepted create body, and the content of an accepted
    update body, neither begin nor end with white space, and trimming them
    again changes nothing. *)
Theorem validated_text_is_trimmed body :
  (forall d, createPostValidation body = Valid d ->
     (starts_with_space (cp_content d) = false /\ ends_with_space (cp_content d) = false
      /\ trim (cp_content d) = cp_content d)
     /\ (starts_with_space (cp_category d) = false
         /\ ends_with_space (cp_category d) = false
         /\ trim (cp_category d) = cp_category d))
  /\
  (forall d, updatePostValidation body = Valid d ->
     starts_with_space (up_content d) = false /\ ends_with_space (up_content d) = false
     /\ trim (up_content d) = up_content d).
Proof.
  split; intros d.
  - unfold createPostValidation.
    destruct body as [[| b | n | raw | items | fields]|]; try discriminate.
    destruct (z_string_min1_trim "content" _ _) as [c|] eqn:Hc;
      destruct (z_array_string_optional "tags" _) as [t|];
      destruct (z_string_min1_trim "category" _ _) as [g|] eqn:Hg;
      try discriminate.
    intros [= <-]. cbn [cp_content cp_category].
    split; by eapply z_string_trimmed.
  - unfold updatePostValidation.
    destruct body as [[| b | n | raw | items | fields]|]; try discriminate.
    destruct (z_string_min1_trim "content" _ _) as [c|] eqn:Hc; [|discriminate].
    intros [= <-]. by eapply z_string_trimmed.
Qed.

End Trimmed.

(** On the scenario: the accepted content of [" hello "] is ["hello"]. *)
Lemma validated_text_is_trimmed_witness :
  exists d, createPostValidation Scenario.hello = Valid d
            /\ cp_content d = "hello" /\ trim (cp_content d) = cp_content d.
Proof.
  exists {| cp_content := "hello"; cp_tags := None; cp_category := "tech" |}.
  split; [vm_compute; reflexivity|]. split; [reflexivity|].
  destruct (validated_text_is_trimmed Scenario.hello) as [Hcreate _].
  destruct (Hcreate {| cp_content := "hello"; cp_tags := None; cp_category := "tech" |})
    as [(_ & _ & Hfixed) _]; [vm_compute; reflexivity|].
  exact Hfixed.
Defined.

(** ** The cache key scheme *)

Lemma append_inj_r (p s t : string) : (p ++ s)%string = (p ++ t)%string -> s = t.
Proof. induction p as [|a p IH]; simpl; [done|]. intros [= Heq]. auto. Qed.

(** Property X16.
    Cache keys of different users never collide, a profile key is never an
    own-posts key nor the list key, and the own-posts key of a user is the
    list key ["posts:all"] exactly for the user identifier ["all"]. *)
Theorem cache_keys_collide_only_for_all U V :
  (PROFILE_CACHE_KEY U = PROFILE_CACHE_KEY V -> U = V)
  /\ (POSTS_CACHE_KEY U = POSTS_CACHE_KEY V -> U = V)
  /\ PROFILE_CACHE_KEY U <> POSTS_CACHE_KEY V
  /\ PROFILE_CACHE_KEY U <> CACHE_KEY
  /\ (POSTS_CACHE_KEY U = CACHE_KEY <-> U = "all").
Proof.
  unfold PROFILE_CACHE_KEY, POSTS_CACHE_KEY, CACHE_KEY.
  split; [apply append_inj_r|]. split; [apply append_inj_r|].
  split; [simpl; discriminate|]. split; [simpl; discriminate|].
  split; [apply (append_inj_r "posts:" U "all") | by intros ->].
Qed.

(** For the identifier of Alice. *)
Lemma cache_keys_witness :
  PROFILE_CACHE_KEY (user_id Scenario.alice) <> POSTS_CACHE_KEY (user_id Scenario.alice)
  /\ POSTS_CACHE_KEY (user_id Scenario.alice) <> CACHE_KEY.
Proof.
  destruct (cache_keys_collide_only_for_all (user_id Scenario.alice)
              (user_id Scenario.alice)) as (_ & _ & Hdiff & _ & Hall).
  split; [exact Hdiff|]. intros Heq. apply Hall in Heq. vm_compute in Heq.
  discriminate Heq.
Defined.

(** ** A new post heads the next fresh listing *)

Section FreshListing.
Context `{Platform} (env : Env).

Lemma newest_is_first (l ps : list Post) (p : Post) :
  StronglySorted newer_first l ->
  l ≡ₚ ps ++ [p] ->
  (forall q, q ∈ ps -> (post_createdAt q < post_createdAt p)%Z) ->
  exists rest, l = p :: rest.
Proof.
  intros Hsorted Hperm Hnewest.
  destruct l as [|x rest].
  { apply Permutation_nil_l in Hperm. by destruct ps. }
  exists rest. f_equal.
  apply StronglySorted_inv in Hsorted as [_ Hx]. rewrite Forall_forall in Hx.
  assert (x ∈ ps ++ [p]) as Hin by (rewrite <- Hperm; by left).
  apply elem_of_app in Hin as [Hin | Hin%list_elem_of_singleton]; [|done].
  exfalso.
  assert (p ∈ x :: rest) as Hp by (rewrite Hperm; apply elem_of_app; right; by left).
  apply elem_of_cons in Hp as [-> | Hp].
  - specialize (Hnewest _ Hin). lia.
  - specialize (Hx _ Hp). specialize (Hnewest _ Hin). unfold newer_first in Hx. lia.
Qed.

(** Property X17.
    When a creation succeeds while the list is not cached and every stored
    post is older than the store's clock, the next listing (served from the
    store) shows the new post first. *)
Theorem created_post_heads_next_listing req s r s' :
  createPost env req s = (r, s') ->
  status r = 201 ->
  redis s !! CACHE_KEY = None ->
  (forall q, q ∈ posts s -> (post_createdAt q < now env)%Z) ->
  exists newPost rest,
    posts s' = posts s ++ [newPost] /\
    merge_sort newer_first (posts s') = newPost :: rest /\
    forall env', reliable env' ->
      (getAllPosts env' s').1
      = all_posts_retrieved (JArr (populated s' newPost :: (populated s' <$> rest))).
Proof.
  intros Hrun Hst Hmiss Holder.
  assert (redis s' !! CACHE_KEY = None
          /\ exists newPost, posts s' = posts s ++ [newPost]
                             /\ post_createdAt newPost = now env)
    as (Hmiss' & newPost & Hposts & Hnow).
  { revert r s' Hrun Hst. run_controller. unfold createPost_body.
    wp; try not_success. all: intros _.
    all: (split; [| eexists; split; reflexivity]).
    all: rewrite ?lookup_delete; repeat case_decide; try done.
    all: rewrite Hmiss in *; discriminate. }
  destruct (listing_sorted (posts s')) as [Hsorted Hperm].
  rewrite Hposts in Hperm at 2.
  destruct (newest_is_first _ _ _ Hsorted Hperm) as [rest Hrest].
  { intros q Hq. rewrite Hnow. auto. }
  exists newPost, rest. do 2 (split; [done|]).
  intros env' Hrel.
  unfold getAllPosts, controller, getAllPosts_body, bind, client_get, client_set,
    postModel_find_sorted_populated, call, ret.
  rewrite !Hrel. state_simpl. rewrite Hmiss'. cbn. rewrite !Hrel. cbn.
  rewrite Hrest. reflexivity.
Qed.

End FreshListing.

(** ** Posts of a category *)

Ltac forum_unfold :=
  unfold getPostsByCategory, getPostsByCategory_body, createComment, createComment_body,
    getComments, getComments_listing, updateComment, updateComment_body,
    deleteComments, deleteComments_body, f_controller, f_bind, f_lift, f_ret, f_reply,
    categoryModel_findById, postModel_find_category, postModel_lookup,
    userModel_findById, commentModel_create, commentModel_find_populated,
    commentModel_countDocuments, commentModel_findById,
    commentModel_findByIdAndUpdate, commentModel_findByIdAndDelete, ask in *.

Ltac forum_simpl :=
  cbn [fst snd store comments asked noted set_comments issue_id status body
       bump_issued posts categories users redis issued trace] in *.

(** Split on the next thing a forum controller depends on. *)
Ltac forum_case :=
  match goal with
  | |- context [match ?rejects ?h ?q with Some _ => _ | None => _ end] =>
      destruct (rejects h q) eqn:?
  | |- context [match List.find ?g ?l with Some _ => _ | None => _ end] =>
      destruct (List.find g l) eqn:?
  | |- context [match zod_parse ?p with Done _ => _ | Raised _ => _ end] =>
      destruct p eqn:?; cbn [zod_parse]
  | |- context [match destructure ?k ?b with Done _ => _ | Raised _ => _ end] =>
      destruct (destructure k b) eqn:?
  | |- context [if falsy ?v then _ else _] => destruct (falsy v) eqn:?
  | |- context [if not_author_of ?c ?u then _ else _] => destruct (not_author_of c u) eqn:?
  | |- context [match req_user ?r with Some _ => _ | None => _ end] =>
      destruct (req_user r) eqn:?
  end; forum_simpl.

Ltac forum := forum_unfold; forum_simpl; repeat forum_case.



Section CategoryListing.
Context `{Platform} `{CommentSchema} (rejects : list Query -> Query -> option Exn).


(** Property X19.
    For any behaviour of the store, [getPostsByCategory] only reads. *)
Theorem getPostsByCategory_only_reads req f :
  let f' := (getPostsByCategory rejects req f).2 in
  store f' = store f /\ comments f' = comments f.
Proof. forum; done. Qed.

End CategoryListing.

(** ** Comments *)

Section Comments.
Context `{Platform} `{CommentSchema} (rejects : list Query -> Query -> option Exn).

Lemma find_comment_has_id id cs c :
  List.find (comment_has_id id) cs = Some c -> comment_id c = id /\ c ∈ cs.
Proof.
  intros Hfind. apply find_some in Hfind as [Hin Hid].
  split; [by apply String.eqb_eq | by apply list_elem_of_In].
Qed.




(** Property X21.
    The body is validated before anything is looked up: an invalid body is
    answered 400 without a single query.  With a valid body and a store that
    answers, a caller who is not authenticated is told 404, as for a missing
    post. *)
Theorem createComment_validates_first req f r f' :
  createComment rejects req f = (r, f') ->
  (forall issues, commentValidation (req_body req) = Invalid issues ->
     status r = 400 /\ f' = f)
  /\ (forall content, commentValidation (req_body req) = Valid content ->
      answering rejects -> req_user req = None ->
      r = {| status := 404; body := failure "Post or user not found" |}
      /\ comments f' = comments f).
Proof.
  intros Hrun. split.
  - intros issues Hbad. revert Hrun. forum_unfold. rewrite Hbad. cbn.
    intros [= <- <-]. done.
  - intros content Hok Hans Hanon. revert Hrun. forum_unfold. rewrite Hok, Hanon.
    cbn [zod_parse]. rewrite !Hans. forum_simpl.
    destruct (List.find _ _); intros [= <- <-]; done.
Qed.

(** Property X22.
    [updateComment] asks for a content first: when the body carries none
    (or a falsy one), the answer is 400 and no query is made, whoever calls
    and whatever the comment. *)
Theorem updateComment_requires_content req f content :
  destructure "content" (req_body req) = Done content ->
  falsy content = true ->
  updateComment rejects req f
  = ({| status := 400; body := failure "Content is required" |}, f).
Proof.
  intros Hbody Hfalsy. forum_unfold. rewrite Hbody, Hfalsy. done.
Qed.

Lemma update_comment_keeps id content cs :
  Forall2 (fun c c' => comment_id c' = comment_id c /\ comment_post c' = comment_post c
                       /\ comment_author c' = comment_author c)
          cs (update_comment id content cs).
Proof.
  induction cs as [|c cs IH]; cbn; [constructor|].
  destruct (comment_has_id id c).
  - constructor; [done|]. apply Forall_Forall2_diag, Forall_forall. done.
  - by constructor.
Qed.

(** Property X23.
    Whatever happens, [updateComment] neither adds nor removes a comment and
    never changes the identifier, the post or the author of one; posts,
    users and categories are untouched. *)
Theorem updateComment_keeps_ownership req f :
  let f' := (updateComment rejects req f).2 in
  Forall2 (fun c c' => comment_id c' = comment_id c /\ comment_post c' = comment_post c
                       /\ comment_author c' = comment_author c)
          (comments f) (comments f')
  /\ store f' = store f.
Proof.
  forum.
  all: split; [|done].
  all: try apply update_comment_keeps.
  all: apply Forall_Forall2_diag, Forall_forall; done.
Qed.

(** Property X24.
    Only the author changes or removes a comment: for a caller who is not
    the author of the comment (or is not authenticated), and for any
    behaviour of the store, neither [updateComment] nor [deleteComments]
    changes the comments or answers 200; when the store answers, the
    deletion is refused with 403, and so is an update that carries a
    content. *)
Theorem comment_of_another_is_protected req f c :
  List.find (comment_has_id (req_id req)) (comments f) = Some c ->
  not_author_of c (req_user req) = true ->
  (comments (updateComment rejects req f).2 = comments f
   /\ status (updateComment rejects req f).1 <> 200
   /\ comments (deleteComments rejects req f).2 = comments f
   /\ status (deleteComments rejects req f).1 <> 200)
  /\ (answering rejects ->
      status (deleteComments rejects req f).1 = 403
      /\ (forall content, destructure "content" (req_body req) = Done content ->
            falsy content = false -> status (updateComment rejects req f).1 = 403)).
Proof.
  intros Hfind Hother. split.
  - forum_unfold. forum_simpl. rewrite Hfind.
    repeat forum_case; simplify_eq; try congruence; done.
  - intros Hans. split.
    + forum_unfold. rewrite Hans. forum_simpl. rewrite Hfind, Hother. done.
    + intros content Hbody Htruthy. forum_unfold. rewrite Hbody, Htruthy, Hans.
      forum_simpl. rewrite Hfind, Hother. done.
Qed.


(** Property X26.
    The post lookup of [getComments] stands outside the [try] block: the
    handler ends without a response exactly when that lookup is rejected,
    and the error that escapes is the one of the lookup. *)
Theorem getComments_lookup_failure_escapes req f e :
  (getComments rejects req f).1 = Unhandled e
  <-> rejects (asked f) (PostLookup (req_id req)) = Some e.
Proof.
  forum; split; intros Heq; by simplify_eq.
Qed.







End Comments.

(** ** The properties on the scenarios *)

(** Alice creates a post on the cold system: the list stays uncached. *)
Lemma mutation_never_populates_witness :
  redis (createPost Scenario.quiet Scenario.alice_posts_hello Scenario.db).2 !! CACHE_KEY
  = None.
Proof.
  apply (mutation_never_populates_list_cache Scenario.quiet Create
           Scenario.alice_posts_hello Scenario.db _ _ (surjective_pairing _)).
  vm_compute; reflexivity.
Defined.

(** Alice edits her post while Bob's profile is cached: the entry stays. *)
Lemma mutation_keeps_other_entries_witness :
  redis (updatePost Scenario.quiet Scenario.alice_edits_first Cases.crowded).2
    !! PROFILE_CACHE_KEY (user_id Scenario.bob)
  = Some ("{}", Some 3600%N).
Proof.
  etrans.
  - apply (mutation_keeps_other_cache_entries Scenario.quiet Update
             Scenario.alice_edits_first Cases.crowded _ _
             (PROFILE_CACHE_KEY (user_id Scenario.bob)) (surjective_pairing _)).
    + intros Heq. vm_compute in Heq. discriminate Heq.
    + intros U HU. injection HU as <-.
      split; intros Heq; vm_compute in Heq; discriminate Heq.
  - vm_compute; reflexivity.
Defined.

(** Alice posts under the new category ["news"]: the names stay distinct. *)
Lemma createPost_gets_or_creates_witness :
  NoDup (category_name <$>
           categories (createPost Scenario.quiet Scenario.alice_posts_news Scenario.db).2).
Proof.
  destruct (createPost_gets_or_creates_category Scenario.quiet
              Scenario.alice_posts_news Scenario.db _ _ (surjective_pairing _))
    as (_ & Hdistinct & _).
  - apply (bool_decide_unpack _). vm_compute; reflexivity.
  - exact Hdistinct.
Defined.

(** Alice deletes her post: the remaining post still has its category. *)
Lemma mutation_keeps_resolved_witness :
  categories_resolved
    (deletePost Scenario.quiet Scenario.alice_deletes_first Scenario.db).2.
Proof.
  apply (mutation_keeps_categories_resolved Scenario.quiet Delete
           Scenario.alice_deletes_first Scenario.db _ _ (surjective_pairing _)).
  intros p Hp. exists Scenario.tech. split; [by left|].
  apply elem_of_cons in Hp as [Hp | Hp]; [by rewrite Hp|].
  apply list_elem_of_singleton in Hp. by rewrite Hp.
Defined.

(** Alice edits the first post while the cached list holds the second only:
    the cached text is left as it was. *)
Lemma updatePost_skips_uncached_witness :
  redis (updatePost Scenario.quiet Scenario.alice_edits_first Cases.partial).2
    !! CACHE_KEY
  = Some (Cases.partial_text, Some 43200%N).
Proof.
  destruct (updatePost_skips_uncached_post Scenario.quiet Scenario.alice_edits_first
              Cases.partial _ _ Cases.partial_text (Some 43200%N) Cases.partial_listing
              (surjective_pairing _))
    as (U & calls & HU & _ & _ & _ & Hkept).
  - vm_compute; reflexivity.
  - vm_compute; reflexivity.
  - vm_compute; reflexivity.
  - repeat constructor.
  - apply Hkept. injection HU as <-. intros Heq. vm_compute in Heq. discriminate Heq.
Defined.

(** Alice deletes her post while the cached list is not JSON: 500, and the
    post is gone from the store. *)
Lemma corrupt_cache_witness :
  status (deletePost Scenario.quiet Scenario.alice_deletes_first Cases.corrupt).1 = 500
  /\ posts (deletePost Scenario.quiet Scenario.alice_deletes_first Cases.corrupt).2
     = [Scenario.second].
Proof.
  destruct (corrupt_cache_fails_after_mutation Scenario.quiet Delete
              Scenario.alice_deletes_first Cases.corrupt (user_id Scenario.alice)
              Scenario.first _ _ "oops" (Some 43200%N) ltac:(discriminate)
              (surjective_pairing _))
    as (Hstatus & _ & Hposts).
  - split; [reflexivity|]. intros Heq. vm_compute in Heq. discriminate Heq.
  - vm_compute; reflexivity.
  - intros h c. reflexivity.
  - vm_compute; reflexivity.
  - reflexivity.
  - vm_compute; reflexivity.
  - discriminate.
  - vm_compute; reflexivity.
  - split; [exact Hstatus|]. etrans; [exact Hposts|]. vm_compute; reflexivity.
Defined.

(** Alice creates a post while the cache is unreachable: 500, and the store
    holds three posts. *)
Lemma createPost_cache_outage_witness :
  status (createPost Scenario.cache_down Scenario.alice_posts_hello Scenario.db).1 = 500
  /\ length (posts (createPost Scenario.cache_down Scenario.alice_posts_hello
                      Scenario.db).2) = 3.
Proof.
  destruct (createPost_cache_outage_keeps_post Scenario.cache_down
              Scenario.alice_posts_hello Scenario.db _ _ (user_id Scenario.alice)
              Cases.hello_data Scenario.tech "ECONNREFUSED" (surjective_pairing _))
    as (Hresponse & Hposts & _).
  - split; [reflexivity|]. intros Heq. vm_compute in Heq. discriminate Heq.
  - vm_compute; reflexivity.
  - vm_compute; reflexivity.
  - reflexivity.
  - intros h c Hstore. destruct c; try discriminate Hstore; reflexivity.
  - intros h. reflexivity.
  - rewrite Hresponse, Hposts. split; reflexivity.
Defined.

(** Alice deletes her post on the warm system: it cannot be found after. *)
Lemma deleted_post_is_gone_witness :
  List.find (has_id (post_id Scenario.first)) (posts Scenario.after_delete.2) = None.
Proof.
  destruct (deleted_post_is_gone Scenario.quiet Scenario.alice_deletes_first
              Scenario.warm _ _ (surjective_pairing Scenario.after_delete))
    as (_ & Hgone & _).
  - vm_compute; reflexivity.
  - apply (bool_decide_unpack _). vm_compute; reflexivity.
  - exact Hgone.
Defined.

(** Anyone looks the first post up. *)
Lemma getPostsById_found_witness :
  status (getPostsById Scenario.quiet Cases.anyone_reads_first Scenario.db).1 = 200.
Proof.
  pose proof (getPostsById_found_or_404 Scenario.quiet Cases.anyone_reads_first
                Scenario.db _ _ (surjective_pairing _) (fun _ _ => eq_refl)) as Hfound.
  assert (List.find (has_id (req_id Cases.anyone_reads_first)) (posts Scenario.db)
          = Some Scenario.first) as Hfirst by (vm_compute; reflexivity).
  rewrite Hfirst in Hfound. exact (proj1 Hfound).
Defined.

(** A listing on the busy system leaves Alice's cached profile alone. *)
Lemma getAllPosts_touches_only_list_witness :
  redis (getAllPosts Scenario.quiet Scenario.busy).2
    !! PROFILE_CACHE_KEY (user_id Scenario.alice)
  = redis Scenario.busy !! PROFILE_CACHE_KEY (user_id Scenario.alice).
Proof.
  apply (getAllPosts_touches_only_list_cache Scenario.quiet Scenario.busy
           (PROFILE_CACHE_KEY (user_id Scenario.alice))).
  intros Heq. vm_compute in Heq. discriminate Heq.
Defined.

(** Alice creates a post on the cold system: the sorted store begins with
    it. *)
Lemma created_post_heads_witness :
  exists newPost rest,
    merge_sort newer_first
      (posts (createPost Scenario.quiet Scenario.alice_posts_hello Scenario.db).2)
    = newPost :: rest
    /\ posts (createPost Scenario.quiet Scenario.alice_posts_hello Scenario.db).2
       = posts Scenario.db ++ [newPost].
Proof.
  destruct (created_post_heads_next_listing Scenario.quiet Scenario.alice_posts_hello
              Scenario.db _ _ (surjective_pairing _))
    as (newPost & rest & Hposts & Hsorted & _).
  - vm_compute; reflexivity.
  - vm_compute; reflexivity.
  - intros q Hq.
    apply elem_of_cons in Hq as [Hq | Hq]; [rewrite Hq; vm_compute; reflexivity|].
    apply list_elem_of_singleton in Hq. rewrite Hq. vm_compute; reflexivity.
  - exists newPost, rest. split; [exact Hsorted | exact Hposts].
Defined.



(** Bob sends a body without content: 400, and nothing was asked. *)
Lemma createComment_validates_first_witness :
  status (createComment Thread.answers Thread.bob_comments_nothing Thread.talk).1 = 400
  /\ (createComment Thread.answers Thread.bob_comments_nothing Thread.talk).2
     = Thread.talk.
Proof.
  destruct (createComment_validates_first Thread.answers Thread.bob_comments_nothing
              Thread.talk _ _ (surjective_pairing _)) as (Hinvalid & _).
  exact (Hinvalid [ {| issue_path := ["content"]; issue_message := "Required" |} ]
           eq_refl).
Defined.

(** Alice sends an update without content for Bob's comment: 400, not 403. *)
Lemma updateComment_requires_content_witness :
  updateComment Thread.answers Thread.alice_rewrites_with_nothing Thread.talk
  = ({| status := 400; body := failure "Content is required" |}, Thread.talk).
Proof.
  exact (updateComment_requires_content Thread.answers Thread.alice_rewrites_with_nothing
           Thread.talk None eq_refl eq_refl).
Defined.

(** Alice tries to rewrite Bob's comment: 403, the comments are as before. *)
Lemma comment_of_another_witness :
  status (updateComment Thread.answers Thread.alice_rewrites_praise Thread.talk).1 = 403
  /\ comments (updateComment Thread.answers Thread.alice_rewrites_praise Thread.talk).2
     = comments Thread.talk.
Proof.
  destruct (comment_of_another_is_protected Thread.answers Thread.alice_rewrites_praise
              Thread.talk Thread.praise) as ((Hsame & _) & Hrefused).
  - vm_compute; reflexivity.
  - vm_compute; reflexivity.
  - split; [|exact Hsame].
    destruct (Hrefused (fun _ _ => eq_refl)) as (_ & Hupdate).
    apply (Hupdate (Some (JStr "bad"))); reflexivity.
Defined.


(** The post lookup is rejected: nothing is sent. *)
Lemma getComments_lookup_failure_witness :
  (getComments Thread.lookup_down Thread.reads_first Thread.talk).1
  = Unhandled (Error "pool destroyed").
Proof.
  apply (getComments_lookup_failure_escapes Thread.lookup_down Thread.reads_first
           Thread.talk (Error "pool destroyed")).
  reflexivity.
Defined.



(** Alice creates a post on the warm system: the identifiers stay unique. *)
Lemma mutation_keeps_ids_unique_witness : unique_ids Scenario.after_hello.2.
Proof.
  apply (mutation_keeps_ids_unique Scenario.quiet Create Scenario.alice_posts_hello
           Scenario.warm _ _ (surjective_pairing Scenario.after_hello)).
  - apply (bool_decide_unpack _). vm_compute; reflexivity.
  - intros _. split; apply (bool_decide_unpack _); vm_compute; reflexivity.
Defined.

(** The second listing of the scenario answers as the first. *)
Lemma getAllPosts_twice_witness :
  (getAllPosts Scenario.quiet Scenario.warm).1
  = (getAllPosts Scenario.quiet Scenario.db).1.
Proof.
  destruct (getAllPosts_twice Scenario.quiet Scenario.db (fun _ _ => eq_refl))
    as [Hsame _].
  - vm_compute; reflexivity.
  - vm_compute; reflexivity.
  - exact Hsame.
Defined.
